(** * songscraper: the lyrics searchers and the batch driver

    A shallow embedding of [searcher.py] and [fetch_lyrics.py].

    - Python [str] values are sequences of Unicode code points.
    - Exceptions are an explicit [result]; code that also performs HTTP
      requests, writes files or prints runs in a state-and-exception monad.
    - The parts of [bs4] and [requests] that the code observes are modelled by
      the [Tag] type and the [Runtime] class. *)

From Stdlib Require Import String Ascii NArith.
From stdpp Require Import base option list gmap.

Local Open Scope N_scope.
Local Open Scope list_scope.

(** ** Python strings *)

(** A [str] is a sequence of code points. *)
Definition pystr : Type := list N.

(** An ASCII literal of the source, as a [str]. *)
Definition u (s : string) : pystr := map N_of_ascii (list_ascii_of_string s).

Definition newline : N := 10.
Definition tab : N := 9.
(** U+FF1F FULLWIDTH QUESTION MARK and U+FF01 FULLWIDTH EXCLAMATION MARK. *)
Definition fullwidth_question : N := 0xFF1F.
Definition fullwidth_exclamation : N := 0xFF01.
Definition halfwidth_question : N := 63.
Definition halfwidth_exclamation : N := 33.

(** [sub in s]. *)
Fixpoint startswith (p s : pystr) : bool :=
  match p, s with
  | [], _ => true
  | _ :: _, [] => false
  | a :: p', b :: s' => (a =? b) && startswith p' s'
  end.

Fixpoint contains (sub s : pystr) : bool :=
  startswith sub s ||
  match s with
  | [] => false
  | _ :: s' => contains sub s'
  end.

(** Left-to-right substitution of non-overlapping matches, the scan shared by
    [str.replace] and [re.sub].  [m s] is the length of the match that starts
    at the head of [s], if there is one; every pattern of the program matches
    at least one character.  [skip] counts the characters of the current match
    that are still to be dropped. *)
Fixpoint sub_scan (m : pystr -> option nat) (repl : pystr) (skip : nat)
    (s : pystr) : pystr :=
  match s with
  | [] => []
  | c :: s' =>
      match skip with
      | S k => sub_scan m repl k s'
      | O =>
          match m s with
          | Some n => repl ++ sub_scan m repl (pred n) s'
          | None => c :: sub_scan m repl 0 s'
          end
      end
  end.

(** The match of a literal at the head of [s]. *)
Definition match_literal (lit s : pystr) : option nat :=
  if startswith lit s then Some (length lit) else None.

(** The match of the first alternative that applies, as [a|b] does. *)
Fixpoint match_alt (ms : list (pystr -> option nat)) (s : pystr) : option nat :=
  match ms with
  | [] => None
  | m :: ms' =>
      match m s with
      | Some n => Some n
      | None => match_alt ms' s
      end
  end.

(** [s.replace(old, new)]; an empty [old] matches between all characters. *)
Definition str_replace (old new s : pystr) : pystr :=
  match old with
  | [] => new ++ concat (map (fun c => c :: new) s)
  | _ :: _ => sub_scan (match_literal old) new 0 s
  end.

(** ** Exceptions *)

Inductive exn : Type :=
  | LyricsNotFoundError
  | IndexError
  | AttributeError
  | TypeError
  | ValueError
  | ExternalError (code : N)
  | OSError (errno : N).

Inductive result (A : Type) : Type :=
  | Return (a : A)
  | Raise (e : exn).
Arguments Return {A} a.
Arguments Raise {A} e.

Definition result_bind {A B} (r : result A) (k : A -> result B) : result B :=
  match r with
  | Return a => k a
  | Raise e => Raise e
  end.

(** [s[0]] *)
Definition index0 (s : pystr) : result pystr :=
  match s with
  | [] => Raise IndexError
  | c :: _ => Return [c]
  end.

(** ** State and exceptions *)

Definition M (S A : Type) : Type := S -> result A * S.

Definition ret {S A} (a : A) : M S A := fun s => (Return a, s).
Definition raise {S A} (e : exn) : M S A := fun s => (Raise e, s).
Definition lift {S A} (r : result A) : M S A := fun s => (r, s).

Definition bind {S A B} (m : M S A) (k : A -> M S B) : M S B :=
  fun s =>
    match m s with
    | (Return a, s') => k a s'
    | (Raise e, s') => (Raise e, s')
    end.

Declare Scope py_scope.
Delimit Scope py_scope with py.
Notation "x <- c ;; k" := (bind c (fun x => k))
  (at level 100, c at next level, right associativity) : py_scope.
Notation "x <-? c ;; k" := (result_bind c (fun x => k))
  (at level 100, c at next level, right associativity) : py_scope.
Local Open Scope py_scope.

(** [for x in xs: try: return f(x) / except LyricsNotFoundError: pass] followed
    by [raise LyricsNotFoundError]: the loop of [search] and of
    [fuzzy_title_search]. *)
Fixpoint try_each {S X A} (f : X -> M S A) (xs : list X) : M S A :=
  match xs with
  | [] => raise LyricsNotFoundError
  | x :: xs' =>
      fun s =>
        match f x s with
        | (Raise LyricsNotFoundError, s') => try_each f xs' s'
        | other => other
        end
  end.

(** ** The observed part of [bs4], [requests] and the file system *)

(** A [bs4] element as the program observes it: [str(tag)], [tag.text],
    [tag.get(name)] and [tag.select(selector)].  A [BeautifulSoup] document is
    an element too. *)
#[warnings="-register-all"]
Inductive Tag : Type :=
  mkTag {
    tag_str : pystr;
    tag_text : pystr;
    tag_attrs : gmap pystr pystr;
    tag_select : pystr -> list Tag
  }.

(** [tag.select_one(selector)]: the first element of [select], or [None]. *)
Definition select_one (t : Tag) (selector : pystr) : option Tag :=
  head (tag_select t selector).

(** [tag.get(name)] *)
Definition tag_get (t : Tag) (name : pystr) : option pystr :=
  tag_attrs t !! name.

(** [str(x)] for [x] an element or [None]. *)
Definition str_of (x : option Tag) : pystr :=
  match x with
  | Some t => tag_str t
  | None => u "None"
  end.

(** What a request comes back with: a body, or a transport failure raised by
    [requests]. *)
Inductive response : Type :=
  | Content (body : pystr)
  | Failure (code : N).

(** What [with open(path, "w") as of: of.write(text)] comes to: the file
    holds the text; or [open] raises [OSError] and nothing changes; or the
    file was opened, so created or emptied, and [write] or the closing of the
    file raises, the file being left with a part of the text. *)
Inductive stored : Type :=
  | Stored
  | OpenFails (errno : N)
  | WriteFails (e : exn) (partial : pystr).

(** The collaborators the program does not define: Python's case tables
    ([str.lower]), the network (the answer to a request may depend on the
    requests made before it), the [lxml] parser behind [BeautifulSoup] and the
    file system (which treats a path and a text the same way every time). *)
Class Runtime : Type := {
  str_lower : pystr -> pystr;
  http : list pystr -> pystr -> response;
  parse_html : pystr -> Tag;
  file_write : pystr -> pystr -> stored
}.

(** The state the scripts act on. *)
Record World : Type := mkWorld {
  requests : list pystr;          (* the URLs requested so far, oldest first *)
  files : gmap pystr pystr;       (* path to content *)
  stdout : list pystr             (* the lines printed so far *)
}.

(** The world after requests for [urls]. *)
Definition after_request (w : World) (urls : list pystr) : World :=
  mkWorld (requests w ++ urls) (files w) (stdout w).

(** [requests.get(url).content] *)
Definition requests_get `{Runtime} (url : pystr) : M World pystr :=
  fun w =>
    (match http (requests w) url with
     | Content body => Return body
     | Failure code => Raise (ExternalError code)
     end,
     mkWorld (requests w ++ [url]) (files w) (stdout w)).

(** [BeautifulSoup(content, "lxml")] *)
Definition BeautifulSoup `{Runtime} (content : pystr) : Tag := parse_html content.

(** [print(line)] *)
Definition print (line : pystr) : M World unit :=
  fun w => (Return tt, mkWorld (requests w) (files w) (stdout w ++ [line])).

(** [with open(path, "w") as of: of.write(text)] *)
Definition write_file `{Runtime} (path text : pystr) : M World unit :=
  fun w =>
    match file_write path text with
    | Stored =>
        (Return tt, mkWorld (requests w) (<[path := text]> (files w)) (stdout w))
    | OpenFails errno => (Raise (OSError errno), w)
    | WriteFails e partial =>
        (Raise e, mkWorld (requests w) (<[path := partial]> (files w)) (stdout w))
    end.

(** ** [LyricsSearcher] *)

Module LyricsSearcher.

(** The attributes [__init__] sets. *)
Record Attributes : Type := mkAttributes {
  artist : pystr;
  title : pystr;
  strict : bool
}.

(** A concrete subclass: its values for the abstract properties and for the
    hooks it may override. *)
Record Subclass : Type := mkSubclass {
  search_result_css_selector : pystr;
  search_result_artist_css_selector : pystr;
  search_result_lyrics_link_css_selector : pystr;
  lyrics_base_url : pystr;
  lyrics_css_selector : pystr;
  search_url : Attributes -> pystr;
  preprocess_title : pystr -> pystr;
  postprocess : pystr -> pystr
}.

(** An instance. *)
Record Self : Type := mkSelf {
  cls : Subclass;
  attributes :> Attributes
}.

(** [cls(artist, title, strict=strict)] *)
Definition init (c : Subclass) (artist title : pystr) (strict : bool) : Self :=
  mkSelf c (mkAttributes artist (preprocess_title c title) strict).

(** [a[0].lower() == b[0].lower()] *)
Definition first_char_matches `{Runtime} (a b : pystr) : result bool :=
  x <-? index0 a ;;
  y <-? index0 b ;;
  Return (bool_decide (str_lower x = str_lower y)).

(** One iteration of the loop of [find_lyrics_link]: [Return (Some url)] when
    the body returns [url], [Return None] when it falls through to the next
    candidate.  [len_candidates] is [len(candidates)]. *)
Definition examine `{Runtime} (self : Self) (len_candidates : nat)
    (candidate : Tag) : result (option pystr) :=
  let link_selector := search_result_lyrics_link_css_selector (cls self) in
  let artist_selector := search_result_artist_css_selector (cls self) in
  match select_one candidate artist_selector with
  | None => Return None
  | Some artist_tag =>
      let suggested_artist := tag_text artist_tag in
      match select_one candidate link_selector with
      | None => Raise AttributeError
      | Some link_tag =>
          match tag_get link_tag (u "href") with
          | None => Raise TypeError
          | Some href =>
              let suggested_url := lyrics_base_url (cls self) ++ href in
              single <-? (if Nat.eqb len_candidates 1
                          then first_char_matches suggested_artist (artist self)
                          else Return false) ;;
              if single then Return (Some suggested_url)
              else if bool_decide (suggested_artist = artist self)
              then Return (Some suggested_url)
              else
                loose <-? (if negb (strict self)
                           then first_char_matches suggested_artist (artist self)
                           else Return false) ;;
                if loose then Return (Some suggested_url) else Return None
          end
      end
  end.

Fixpoint find_lyrics_link_loop `{Runtime} (self : Self) (len_candidates : nat)
    (rest : list Tag) : result pystr :=
  match rest with
  | [] => Raise LyricsNotFoundError
  | candidate :: rest' =>
      match examine self len_candidates candidate with
      | Return (Some url) => Return url
      | Return None => find_lyrics_link_loop self len_candidates rest'
      | Raise e => Raise e
      end
  end.

Definition find_lyrics_link `{Runtime} (self : Self) (candidates : list Tag)
    : result pystr :=
  find_lyrics_link_loop self (length candidates) candidates.

Definition get_lyrics_url `{Runtime} (self : Self) : M World pystr :=
  content <- requests_get (search_url (cls self) self) ;;
  let soup := BeautifulSoup content in
  let candidates := tag_select soup (search_result_css_selector (cls self)) in
  lift (find_lyrics_link self candidates).

Definition get_lyrics `{Runtime} (self : Self) : M World pystr :=
  url <- get_lyrics_url self ;;
  content <- requests_get url ;;
  let soup := BeautifulSoup content in
  let extracted := select_one soup (lyrics_css_selector (cls self)) in
  ret (postprocess (cls self) (str_of extracted)).

(** [<tag.*?>] at the head of [s]: [.] matches anything but a newline, and the
    lazy star stops at the first [>]. *)
Fixpoint lazy_dots_gt (s : pystr) : option nat :=
  match s with
  | [] => None
  | c :: s' =>
      if c =? 62 then Some 1%nat
      else if c =? newline then None
      else S <$> lazy_dots_gt s'
  end.

Definition match_open_tag (tag s : pystr) : option nat :=
  let opening := u "<" ++ tag in
  if startswith opening s
  then Nat.add (length opening) <$> lazy_dots_gt (drop (length opening) s)
  else None.

(** [(<tag.*?>|</tag>)] at the head of [s], for a [tag] that stands for
    itself in the pattern. *)
Definition tag_pattern (tag : pystr) : pystr -> option nat :=
  match_alt [match_open_tag tag; match_literal (u "</" ++ tag ++ u ">")].

(** The characters to which a pattern gives a meaning of their own. *)
Definition metacharacters : pystr := u ".^$*+?{}[]\|()".

Definition stands_for_itself (tag : pystr) : bool :=
  forallb (fun c => negb (existsb (N.eqb c) metacharacters)) tag.

(** A tag that can be pasted into a pattern as it is.  [remove_surrounding]
    pastes its tag into the pattern unescaped; it is modelled on these tags,
    among them the three the program passes, and on no other. *)
Record literal : Type := Literal {
  literal_text : pystr;
  literal_plain : stands_for_itself literal_text = true
}.

(** [re.sub(f'(<{tag}.*?>|</{tag}>)', '', target)] *)
Definition remove_surrounding (tag : literal) (target : pystr) : pystr :=
  sub_scan (tag_pattern (literal_text tag)) [] 0 target.

Definition remove_p (target : pystr) : pystr :=
  remove_surrounding (Literal (u "p") eq_refl) target.

Definition remove_div (target : pystr) : pystr :=
  remove_surrounding (Literal (u "div") eq_refl) target.

Definition replace_br (target : pystr) : pystr :=
  let close_removed := sub_scan (match_literal (u "</br>")) [] 0 target in
  sub_scan (match_alt [match_literal (u "<br>"); match_literal (u "<br/>")])
    [newline] 0 close_removed.

End LyricsSearcher.

(** ** The four searchers *)

Import LyricsSearcher.

(** Full match of title. *)
Definition UtanetSearcher : Subclass := {|
  search_url self :=
    u "https://www.uta-net.com/search/" ++
    u "?Aselect=2&Keyword=" ++ title self ++ u "&Bselect=4&x=0&y=0";
  search_result_css_selector := u "#ichiran .result_table table tbody tr";
  lyrics_css_selector := u "#kashi_area";
  search_result_artist_css_selector := u ".td2 a";
  search_result_lyrics_link_css_selector := u ".td1 a";
  lyrics_base_url := u "https://www.uta-net.com";
  preprocess_title title := title;
  postprocess target :=
    let target := remove_div target in
    let target := replace_br target in
    target
|}.

(** Forward match of title, artist. *)
Definition JLyricSearcher : Subclass := {|
  search_url self :=
    u "http://search.j-lyric.net/index.php" ++
    u "?kt=" ++ title self ++ u "&ct=2&ka=" ++ artist self ++ u "&ca=2";
  search_result_css_selector := u "#bas #cnt #mnb .bdy";
  lyrics_css_selector := u "#Lyric";
  search_result_artist_css_selector := u ".sml a";
  search_result_lyrics_link_css_selector := u ".mid a";
  lyrics_base_url := u "";
  preprocess_title title := title;
  postprocess target :=
    let target := remove_p target in
    let target := replace_br target in
    target
|}.

(** Forward match of title: [JLyricSearcher] with [search_url] overridden. *)
Definition JLyricTitleSearcher : Subclass := {|
  search_url self :=
    u "http://search.j-lyric.net/index.php" ++
    u "?kt=" ++ title self ++ u "&ct=2&ka=&ca=2";
  search_result_css_selector := search_result_css_selector JLyricSearcher;
  lyrics_css_selector := lyrics_css_selector JLyricSearcher;
  search_result_artist_css_selector := search_result_artist_css_selector JLyricSearcher;
  search_result_lyrics_link_css_selector :=
    search_result_lyrics_link_css_selector JLyricSearcher;
  lyrics_base_url := lyrics_base_url JLyricSearcher;
  preprocess_title := preprocess_title JLyricSearcher;
  postprocess := postprocess JLyricSearcher
|}.

(** Full match of title. *)
Definition PetitLyricsSearcher : Subclass := {|
  search_url self := u "https://petitlyrics.com/search_lyrics?title=" ++ title self;
  search_result_css_selector := u "#lyrics_list tr";
  lyrics_css_selector := u "#lyrics";
  search_result_artist_css_selector := u "td:nth-of-type(2) a:nth-of-type(2)";
  search_result_lyrics_link_css_selector := u "td:nth-of-type(2) a:nth-of-type(1)";
  lyrics_base_url := u "https://petitlyrics.com/";
  preprocess_title title := title;
  postprocess target :=
    let target := remove_div target in
    let target := replace_br target in
    let target := remove_surrounding (Literal (u "canvas") eq_refl) target in
    target
|}.

(** ** [MutipleLyricsSearcher] *)

Module MutipleLyricsSearcher.

(** What [search] does with an element of [searcher_classes]:
    [searcher(artist, title, strict=strict).get_lyrics()], over any state. *)
Definition searcher (S : Type) : Type := pystr -> pystr -> bool -> M S pystr.

Record Self (S : Type) : Type := mkSelf {
  searcher_classes : list (searcher S);
  strict : bool
}.
Arguments mkSelf {S} _ _.
Arguments searcher_classes {S} _.
Arguments strict {S} _.

Definition search {S} (self : Self S) (artist title : pystr) : M S pystr :=
  try_each (fun searcher => searcher artist title (strict self))
    (searcher_classes self).

(** The list [fuzzy_titles] that [fuzzy_title_search] builds before its loop. *)
Definition fuzzy_titles (title : pystr) : list pystr :=
  let fuzzy_titles := [title] in
  let fuzzy_titles :=
    if contains [fullwidth_question] title || contains [fullwidth_exclamation] title
    then
      let halfwidth_title :=
        str_replace [fullwidth_exclamation] [halfwidth_exclamation]
          (str_replace [fullwidth_question] [halfwidth_question] title) in
      fuzzy_titles ++ [halfwidth_title]
    else fuzzy_titles in
  let fuzzy_titles :=
    if contains [halfwidth_question] title || contains [halfwidth_exclamation] title
    then
      let fullwidth_title :=
        str_replace [halfwidth_exclamation] [fullwidth_exclamation]
          (str_replace [halfwidth_question] [fullwidth_question] title) in
      fuzzy_titles ++ [fullwidth_title]
    else fuzzy_titles in
  fuzzy_titles.

Definition fuzzy_title_search {S} (self : Self S) (artist title : pystr)
    : M S pystr :=
  try_each (fun title => search self artist title) (fuzzy_titles title).

End MutipleLyricsSearcher.

(** A subclass of [LyricsSearcher] used as an element of [searcher_classes]. *)
Definition as_searcher `{Runtime} (c : Subclass) : MutipleLyricsSearcher.searcher World :=
  fun artist title strict => get_lyrics (init c artist title strict).

(** ** [fetch_lyrics.py] *)

(** [s.rstrip("\n")] *)
Fixpoint rstrip_newline (s : pystr) : pystr :=
  match s with
  | [] => []
  | c :: s' =>
      match rstrip_newline s' with
      | [] => if c =? newline then [] else [c]
      | kept => c :: kept
      end
  end.

(** [s.split(sep)] for a one-character [sep]. *)
Fixpoint split (sep : N) (s : pystr) : list pystr :=
  match s with
  | [] => [[]]
  | c :: s' =>
      if c =? sep then [] :: split sep s'
      else
        match split sep s' with
        | field :: fields => (c :: field) :: fields
        | [] => [[c]]
        end
  end.

(** [title, artist = line.rstrip("\n").split("\t")] *)
Definition parse_line (line : pystr) : result (pystr * pystr) :=
  match split tab (rstrip_newline line) with
  | [title; artist] => Return (title, artist)
  | _ => Raise ValueError
  end.

(** The path of the lyrics file of a pair. *)
Definition lyrics_path (artist title : pystr) : pystr :=
  u "lyrics/" ++ str_replace (u "/") (u "_") (artist ++ u "-" ++ title).

(** The [searcher] the loop builds for every line. *)
Definition batch_searcher `{Runtime} : MutipleLyricsSearcher.Self World :=
  MutipleLyricsSearcher.mkSelf
    [as_searcher JLyricSearcher;
     as_searcher UtanetSearcher;
     as_searcher PetitLyricsSearcher;
     as_searcher JLyricTitleSearcher] false.

(** The body of the loop over the lines of the input file. *)
Definition process_line `{Runtime} (line : pystr) : M World unit :=
  pair <- lift (parse_line line) ;;
  let '(title, artist) := pair in
  let searcher := batch_searcher in
  fun w =>
    match MutipleLyricsSearcher.fuzzy_title_search searcher artist title w with
    | (Raise LyricsNotFoundError, w') =>
        print (u "Lyrics not found: " ++ title ++ u " - " ++ artist) w'
    | (Raise e, w') => (Raise e, w')
    | (Return lyrics, w') =>
        (_ <- print (u "Lyrics found: " ++ title ++ u "_" ++ artist ++ u ".txt") ;;
         write_file (lyrics_path artist title) lyrics) w'
    end.

Fixpoint main `{Runtime} (lines : list pystr) : M World unit :=
  match lines with
  | [] => ret tt
  | line :: lines' => _ <- process_line line ;; main lines'
  end.

(** ** Vocabulary of the specification *)

(** [all_not_found f xs s s']: running [f] on every element of [xs] in order,
    from state [s], raises [LyricsNotFoundError] each time and ends in [s']. *)
Inductive all_not_found {S X A} (f : X -> M S A) : list X -> S -> S -> Prop :=
  | all_not_found_nil s : all_not_found f [] s s
  | all_not_found_cons x xs s s1 s2 :
      f x s = (Raise LyricsNotFoundError, s1) ->
      all_not_found f xs s1 s2 ->
      all_not_found f (x :: xs) s s2.

(** A recorded invocation of an adapter: its position in [searcher_classes] and
    the arguments it was called with. *)
Record call : Type := mkCall {
  call_position : nat;
  call_artist : pystr;
  call_title : pystr;
  call_strict : bool
}.

(** An adapter that records its invocation and then behaves as [c]. *)
Definition spy {S} (position : nat) (c : MutipleLyricsSearcher.searcher S)
    : MutipleLyricsSearcher.searcher (S * list call) :=
  fun artist title strict st =>
    let '(r, s') := c artist title strict (fst st) in
    (r, (s', snd st ++ [mkCall position artist title strict])).

(** The artist a candidate displays, when its artist field is parsable. *)
Definition candidate_artist (self : Self) (candidate : Tag) : option pystr :=
  tag_text <$> select_one candidate (search_result_artist_css_selector (cls self)).

(** The lyrics URL of a candidate, when it links to one. *)
Definition candidate_url (self : Self) (candidate : Tag) : option pystr :=
  link_tag ← select_one candidate (search_result_lyrics_link_css_selector (cls self));
  href ← tag_get link_tag (u "href");
  Some (lyrics_base_url (cls self) ++ href).

(** Both strings have a first character, and the two are equal up to case. *)
Definition first_char_equal `{Runtime} (a b : pystr) : bool :=
  match a, b with
  | x :: _, y :: _ => bool_decide (str_lower [x] = str_lower [y])
  | _, _ => false
  end.

(** The selection rule for sequences of more than one candidate. *)
Definition selects `{Runtime} (self : Self) (candidate : Tag) : bool :=
  match candidate_artist self candidate with
  | None => false
  | Some suggested_artist =>
      bool_decide (suggested_artist = artist self)
      || negb (strict self) && first_char_equal suggested_artist (artist self)
  end.

(** What the selection rule promises of [find_lyrics_link]: the URL of the
    first selected candidate, [LyricsNotFoundError] when none is selected. *)
Definition selection_rule `{Runtime} (self : Self) (candidates : list Tag) : Prop :=
  match List.find (selects self) candidates with
  | Some candidate =>
      exists url, candidate_url self candidate = Some url /\
                  find_lyrics_link self candidates = Return url
  | None => find_lyrics_link self candidates = Raise LyricsNotFoundError
  end.

(** A candidate whose artist selector matches has a non-empty artist text and
    an element matching the lyrics-link selector. *)
Definition has_artist_text_and_link (self : Self) (candidate : Tag) : bool :=
  match candidate_artist self candidate with
  | None => true
  | Some suggested_artist =>
      negb (bool_decide (suggested_artist = []))
      && bool_decide (is_Some (select_one candidate
                                 (search_result_lyrics_link_css_selector (cls self))))
  end.

(** The same, with the link element carrying an [href]. *)
Definition has_artist_text_and_href (self : Self) (candidate : Tag) : bool :=
  match candidate_artist self candidate with
  | None => true
  | Some suggested_artist =>
      negb (bool_decide (suggested_artist = []))
      && bool_decide (is_Some (candidate_url self candidate))
  end.

(** [find_lyrics_link] returned a URL or raised [LyricsNotFoundError]. *)
Definition url_or_not_found (r : result pystr) : Prop :=
  match r with
  | Return _ | Raise LyricsNotFoundError => True
  | Raise _ => False
  end.

(** Full-width [?] and [!] replaced by the half-width ones, all else kept. *)
Definition to_halfwidth (title : pystr) : pystr :=
  map (fun c => if c =? fullwidth_question then halfwidth_question
                else if c =? fullwidth_exclamation then halfwidth_exclamation
                else c) title.

(** Half-width [?] and [!] replaced by the full-width ones, all else kept. *)
Definition to_fullwidth (title : pystr) : pystr :=
  map (fun c => if c =? halfwidth_question then fullwidth_question
                else if c =? halfwidth_exclamation then fullwidth_exclamation
                else c) title.

(** [c] occurs in [s]. *)
Definition occurs (c : N) (s : pystr) : bool := existsb (N.eqb c) s.

(** URL encoding as the specification asks for it, in the way of
    [urllib.parse.quote(s, safe='')]: unreserved characters are kept, the UTF-8
    bytes of every other character are written [%XX].  The program never calls
    it. *)
Definition unreserved (c : N) : bool :=
  (65 <=? c) && (c <=? 90) || (97 <=? c) && (c <=? 122)
  || (48 <=? c) && (c <=? 57)
  || (c =? 45) || (c =? 46) || (c =? 95) || (c =? 126).

Definition utf8 (c : N) : list N :=
  if c <? 0x80 then [c]
  else if c <? 0x800 then [0xC0 + c / 64; 0x80 + c mod 64]
  else if c <? 0x10000
  then [0xE0 + c / 4096; 0x80 + (c / 64) mod 64; 0x80 + c mod 64]
  else [0xF0 + c / 262144; 0x80 + (c / 4096) mod 64;
        0x80 + (c / 64) mod 64; 0x80 + c mod 64].

Definition hex_digit (d : N) : N := if d <? 10 then 48 + d else 55 + d.

Definition percent (byte : N) : pystr :=
  [37; hex_digit (byte / 16); hex_digit (byte mod 16)].

Definition url_quote (s : pystr) : pystr :=
  concat (map (fun c => if unreserved c then [c] else concat (map percent (utf8 c))) s).

(** The search URL the specification describes: the template of the subclass
    filled with the URL-encoded artist and title. *)
Definition search_url_encoded (c : Subclass) (artist title : pystr) : pystr :=
  search_url c (mkAttributes (url_quote artist) (url_quote title) true).

(** [name] with every [/] replaced by [_]. *)
Definition without_slashes (name : pystr) : pystr :=
  map (fun c => if (c =? 47)%N then 95%N else c) name.


(** A computation that leaves the files and the printed lines as they were. *)
Definition quiet {A} (m : M World A) : Prop :=
  forall w, files (snd (m w)) = files w /\ stdout (snd (m w)) = stdout w.

(** ** A small world to run the program in *)

Module Demo.

(** [str.lower] on ASCII letters. *)
Definition ascii_lower (s : pystr) : pystr :=
  map (fun c => if (65 <=? c) && (c <=? 90) then c + 32 else c) s.

(** An element given by its markup, its text, its attributes and what each
    selector selects in it. *)
Definition element (html text : pystr) (attrs : list (pystr * pystr))
    (selections : list (pystr * list Tag)) : Tag :=
  mkTag html text (list_to_map attrs)
    (fun selector =>
       match List.find (fun p => bool_decide (fst p = selector)) selections with
       | Some p => snd p
       | None => []
       end).

Definition empty_document : Tag := element [] [] [] [].

(** A result row of the site of [c], showing [artist] and linking to [href]. *)
Definition row (c : Subclass) (artist href : pystr) : Tag :=
  element [] [] []
    [(search_result_artist_css_selector c, [element [] artist [] []]);
     (search_result_lyrics_link_css_selector c,
      [element [] [] [(u "href", href)] []])].

(** A result row with an artist but nothing under the link selector. *)
Definition row_without_link (c : Subclass) (artist : pystr) : Tag :=
  element [] [] [] [(search_result_artist_css_selector c, [element [] artist [] []])].

(** A result row whose link element has no [href]. *)
Definition row_without_href (c : Subclass) (artist : pystr) : Tag :=
  element [] [] []
    [(search_result_artist_css_selector c, [element [] artist [] []]);
     (search_result_lyrics_link_css_selector c, [element [] [] [] []])].

Definition results_page (c : Subclass) (rows : list Tag) : Tag :=
  element [] [] [] [(search_result_css_selector c, rows)].

Definition lyrics_page (c : Subclass) (html : pystr) : Tag :=
  element [] [] [] [(lyrics_css_selector c, [element html [] [] []])].

(** Two rows of the first site and three of the third, one without artist. *)
Definition utanet_rows : list Tag :=
  [row UtanetSearcher (u "Kobukuro") (u "/song/1/");
   row UtanetSearcher (u "Mr.Children") (u "/song/2/")].

Definition petit_rows : list Tag :=
  [row PetitLyricsSearcher (u "Kobukuro") (u "lyrics/1");
   empty_document;
   row PetitLyricsSearcher (u "flumpool") (u "lyrics/2")].

(** Searchers for a song of flumpool, and for a song with no artist given. *)
Definition fan (c : Subclass) (strict : bool) : Self :=
  init c (u "flumpool") (u "tsubomi") strict.

Definition nameless (c : Subclass) (strict : bool) : Self :=
  init c [] (u "tsubomi") strict.

(** The pages that exist, by URL; every other URL answers with an empty body. *)
Definition site : list (pystr * Tag) :=
  [ (search_url UtanetSearcher (mkAttributes (u "flumpool") (u "tsubomi") false),
     results_page UtanetSearcher utanet_rows);
    (search_url PetitLyricsSearcher (mkAttributes (u "flumpool") (u "tsubomi") false),
     results_page PetitLyricsSearcher petit_rows);
    (u "https://petitlyrics.com/lyrics/2",
     lyrics_page PetitLyricsSearcher (u "<div id=lyrics>hana<br/>saku</div>"));
    (search_url PetitLyricsSearcher (mkAttributes (u "flumpool") (u "gone") false),
     results_page PetitLyricsSearcher [row PetitLyricsSearcher (u "Flumpool") (u "lyrics/3")]);
    (u "https://petitlyrics.com/lyrics/3", empty_document) ].

(** A body is the URL it was served from; parsing looks the page up. *)
Definition runtime : Runtime := {|
  str_lower := ascii_lower;
  http _ url := Content url;
  parse_html body :=
    match List.find (fun p => bool_decide (fst p = body)) site with
    | Some p => snd p
    | None => empty_document
    end;
  file_write _ _ := Stored
|}.

Definition world : World := mkWorld [] ∅ [].

(** Two lines of an input file: a song the third site has, and one no site
    has. *)
Definition found_line : pystr :=
  u "tsubomi" ++ [tab] ++ u "flumpool/yamamura" ++ [newline].

Definition lost_line : pystr := u "x" ++ [tab] ++ u "y" ++ [newline].

(** Adapters with a fixed outcome, over a state with nothing in it. *)
Definition failing (e : exn) : MutipleLyricsSearcher.searcher unit :=
  fun _ _ _ s => (Raise e, s).

Definition succeeding (lyrics : pystr) : MutipleLyricsSearcher.searcher unit :=
  fun _ _ _ s => (Return lyrics, s).

End Demo.

(** ** Vocabulary for the rest of the code *)

(** The characters the tag patterns are built around. *)
Definition lt_sign : N := 60.
Definition gt_sign : N := 62.
Definition slash : N := 47.

(** The network answers a URL the same way whatever was requested before. *)
Definition history_independent `{Runtime} : Prop :=
  forall log log' url, http log url = http log' url.

(** The number of tab characters of [s]. *)
Definition tabs (s : pystr) : nat := length (filter (fun c => c = tab) s).

(** A computation that only makes requests, at most [n] of them. *)
Definition requests_at_most {A} (n : nat) (m : M World A) : Prop :=
  forall w, exists new, snd (m w) = after_request w new /\ (length new <= n)%nat.

(** A computation that only makes requests, and whose outcome and requests do
    not depend on the world it starts in. *)
Definition oblivious {A} (m : M World A) : Prop :=
  exists r new, forall w, m w = (r, after_request w new).

(** A computation that adds the same requests, the same files and the same
    printed lines, with the same outcome, whatever world it starts in. *)
Definition fixed_effect {A} (m : M World A) : Prop :=
  exists r new delta reports,
    forall w, m w = (r, mkWorld (requests w ++ new) (delta ∪ files w)
                          (stdout w ++ reports)).

(** The four search URLs tried for one title variant, in the order of the
    batch. *)
Definition batch_search_urls (artist title : pystr) : list pystr :=
  map (fun c => search_url c (init c artist title false))
    [JLyricSearcher; UtanetSearcher; PetitLyricsSearcher; JLyricTitleSearcher].

(** A candidate whose artist selector matches has a link element with an
    [href]; its artist text may be empty. *)
Definition has_href_if_artist (self : Self) (candidate : Tag) : bool :=
  match candidate_artist self candidate with
  | None => true
  | Some _ => bool_decide (is_Some (candidate_url self candidate))
  end.

(** Worlds in which requests fail. *)
Module Faults.

(** Every request fails in transport. *)
Definition offline : Runtime := {|
  str_lower := Demo.ascii_lower;
  http _ _ := Failure 503;
  parse_html := @parse_html Demo.runtime;
  file_write _ _ := Stored
|}.

(** The first request is answered as in [Demo]; every later one fails. *)
Definition flaky : Runtime := {|
  str_lower := Demo.ascii_lower;
  http log url := match log with [] => Content url | _ :: _ => Failure 503 end;
  parse_html := @parse_html Demo.runtime;
  file_write _ _ := Stored
|}.



End Faults.

(** ** [fetch_ranking.py] *)

From Stdlib Require DecimalString.

Module FetchRanking.

(** What the script can raise: the assertion on the key, an index into an
    empty selection, [result] read before it is bound, and whatever [requests]
    raises. *)
Inductive error : Type :=
  | AssertionError
  | IndexError
  | NameError
  | TransportError (code : N).

(** The collaborators of the script: [mojimoji.zen_to_han] with [kana=False],
    the network and the [html5lib] parser behind [BeautifulSoup]. *)
Class Collaborators : Type := {
  zen_to_han : pystr -> pystr;
  http : list pystr -> pystr -> response;
  html5lib : pystr -> Tag
}.

(** The URLs requested, the texts printed, the texts written to [sys.stderr],
    and the module-level variable [result], unbound until a fetch succeeds. *)
Record State : Type := mkState {
  requests : list pystr;
  stdout : list pystr;
  stderr : list pystr;
  var_result : option (list (pystr * pystr))
}.

Definition R (A : Type) : Type := State -> (error + A) * State.

Definition open_paren : N := 40.
Definition close_paren : N := 41.
Definition open_bracket : N := 91.
Definition close_bracket : N := 93.

(** Where [$] lets a match end: at the end of the text, or before one final
    newline. *)
Definition final_newline (s : pystr) : pystr :=
  match last s with
  | Some c => if c =? newline then [newline] else []
  | None => []
  end.

Definition before_final_newline (s : pystr) : pystr :=
  match final_newline s with
  | [] => s
  | _ :: _ => removelast s
  end.

(** [.+\)] on a whole text without newline: a non-empty body and [)]. *)
Definition body_paren (core : pystr) : bool :=
  (2 <=? length core)%nat && bool_decide (last core = Some close_paren).

(** [\)\[.+\]] on a whole text, then [.+\)\[.+\]]: the first [.+] may stop
    after any of its characters. *)
Definition paren_bracket (s : pystr) : bool :=
  match s with
  | c1 :: c2 :: rest =>
      (c1 =? close_paren) && (c2 =? open_bracket)
      && (2 <=? length rest)%nat && bool_decide (last rest = Some close_bracket)
  | _ => false
  end.

Fixpoint body_paren_bracket_from (s : pystr) : bool :=
  paren_bracket s ||
  match s with
  | [] => false
  | _ :: s' => body_paren_bracket_from s'
  end.

Definition body_paren_bracket (core : pystr) : bool :=
  match core with
  | [] => false
  | _ :: s => body_paren_bracket_from s
  end.

(** [match_paren] matches at a [(] followed by [after]: one of the two
    alternatives reaches the place where [$] holds. *)
Definition paren_match (after : pystr) : bool :=
  let core := before_final_newline after in
  negb (occurs newline core) && (body_paren core || body_paren_bracket core).

(** [match_paren.sub("", s)]: a match runs to the end of the text, so the
    first one is the only one. *)
Fixpoint match_paren_sub (s : pystr) : pystr :=
  match s with
  | [] => []
  | c :: s' =>
      if (c =? open_paren) && paren_match s'
      then final_newline s'
      else c :: match_paren_sub s'
  end.

(** [str(n)] *)
Definition str_of_nat (n : nat) : pystr :=
  u (DecimalString.NilEmpty.string_of_uint (Nat.to_uint n)).

(** [selection[0]] *)
Definition first_of (selection : list Tag) : error + Tag :=
  match selection with
  | [] => inl IndexError
  | t :: _ => inr t
  end.

(** The list comprehension over the rows. *)
Fixpoint rows_of `{Collaborators} (rows : list Tag) : error + list (pystr * pystr) :=
  match rows with
  | [] => inr []
  | s :: rows' =>
      match first_of (tag_select s (u "td:nth-of-type(3)")) with
      | inl e => inl e
      | inr title_cell =>
          let title := match_paren_sub (zen_to_han (tag_text title_cell)) in
          match first_of (tag_select s (u "td:nth-of-type(4)")) with
          | inl e => inl e
          | inr artist_cell =>
              let artist := zen_to_han (tag_text artist_cell) in
              match rows_of rows' with
              | inl e => inl e
              | inr pairs => inr ((title, artist) :: pairs)
              end
          end
      end
  end.

Definition ranking_url (year : pystr) : pystr :=
  u "https://www.karatetsu.com/ranking/index.php?top_ym=" ++ year.

Definition fetch_from_ranking `{Collaborators} (year : pystr)
    : R (list (pystr * pystr)) :=
  fun st =>
    if negb (Nat.eqb (length year) 6) then (inl AssertionError, st)
    else
      let st' := mkState (requests st ++ [ranking_url year]) (stdout st)
                   (stderr st) (var_result st) in
      match http (requests st) (ranking_url year) with
      | Failure code => (inl (TransportError code), st')
      | Content content =>
          let soup := html5lib content in
          (rows_of (drop 2 (tag_select soup (u "#ranking tr"))), st')
      end.

(** ["\n".join(lines)] *)
Fixpoint join_lines (lines : list pystr) : pystr :=
  match lines with
  | [] => []
  | [line] => line
  | line :: lines' => line ++ newline :: join_lines lines'
  end.

(** The text printed for a result. *)
Definition table (result : list (pystr * pystr)) : pystr :=
  join_lines (map (fun '(t, a) => t ++ tab :: a) result).

(** The body of the loop. *)
Definition step `{Collaborators} (top_ym : pystr) : R unit :=
  fun st =>
    let '(fetched, st) := fetch_from_ranking top_ym st in
    let st :=
      match fetched with
      | inr result => mkState (requests st) (stdout st) (stderr st) (Some result)
      | inl _ =>
          mkState (requests st) (stdout st)
            (stderr st ++ [top_ym ++ u ": failed" ++ [newline]]) (var_result st)
      end in
    match var_result st with
    | None => (inl NameError, st)
    | Some result =>
        let st :=
          if (1 <? length result)%nat
          then mkState (requests st) (stdout st ++ [table result]) (stderr st)
                 (var_result st)
          else st in
        (inr tt,
         mkState (requests st) (stdout st)
           (stderr st ++ [top_ym ++ u ": " ++ str_of_nat (length result) ++ [newline]])
           (var_result st))
    end.

(** [itertools.product] of the years, 2018 down to 2008, and the months. *)
Definition top_yms : list pystr :=
  year ← map str_of_nat (reverse (seq 2008 11));
  month ← [u "01"; u "02"; u "03"; u "04"; u "05"; u "06";
           u "07"; u "08"; u "09"; u "10"; u "11"; u "12"];
  [year ++ month].

Fixpoint loop `{Collaborators} (keys : list pystr) : R unit :=
  match keys with
  | [] => fun st => (inr tt, st)
  | top_ym :: keys' =>
      fun st =>
        match step top_ym st with
        | (inr _, st') => loop keys' st'
        | (inl e, st') => (inl e, st')
        end
  end.

(** The script, from its start. *)
Definition script `{Collaborators} : (error + unit) * State :=
  loop top_yms (mkState [] [] [] None).




(** The same site, unreachable. *)
Definition unreachable : Collaborators := {|
  zen_to_han s := s;
  http _ _ := Failure 503;
  html5lib _ := Demo.empty_document
|}.

End FetchRanking.

(** * Properties *)

Local Open Scope nat_scope.

(** ** The fallback loop *)

Section TryEach.
Context {S X A : Type} (f : X -> M S A).

Lemma try_each_not_found x xs s s1 :
  f x s = (Raise LyricsNotFoundError, s1) ->
  try_each f (x :: xs) s = try_each f xs s1.
Proof. intros Hx. simpl. by rewrite Hx. Qed.

Lemma try_each_stops x xs s :
  fst (f x s) <> Raise LyricsNotFoundError ->
  try_each f (x :: xs) s = f x s.
Proof.
  intros Hx. simpl. destruct (f x s) as [[v|e] s1]; [done|].
  destruct e; done.
Qed.

Lemma all_not_found_det xs s s1 s2 :
  all_not_found f xs s s1 -> all_not_found f xs s s2 -> s1 = s2.
Proof.
  intros H1. revert s2. induction H1 as [|x xs s sa sb Hx _ IH]; intros s2 H2.
  - by inversion H2.
  - inversion H2 as [|? ? ? sa' ? Hx' Hrest]; subst.
    rewrite Hx in Hx'. injection Hx' as <-. by apply IH.
Qed.

Lemma all_not_found_app xs ys s s1 s2 :
  all_not_found f xs s s1 -> all_not_found f ys s1 s2 ->
  all_not_found f (xs ++ ys) s s2.
Proof.
  induction 1 as [|x xs s sa sb Hx _ IH]; intros Hys; [done|].
  simpl. econstructor; [exact Hx|]. by apply IH.
Qed.

Lemma try_each_all_not_found xs s s' :
  all_not_found f xs s s' -> try_each f xs s = (Raise LyricsNotFoundError, s').
Proof.
  induction 1 as [|x xs s sa sb Hx _ IH]; [done|].
  by rewrite (try_each_not_found _ _ _ _ Hx).
Qed.

Lemma try_each_all_not_found_app pre rest s s_mid :
  all_not_found f pre s s_mid ->
  try_each f (pre ++ rest) s = try_each f rest s_mid.
Proof.
  induction 1 as [|x xs s sa sb Hx _ IH]; [done|].
  simpl app. by rewrite (try_each_not_found _ _ _ _ Hx).
Qed.

(** The loop splits its list in the elements that raised
    [LyricsNotFoundError] and, when there is one, the first element that did
    not, whose outcome is the outcome of the loop. *)
Lemma try_each_decompose xs s :
  exists pre rest s_mid,
    xs = pre ++ rest /\
    all_not_found f pre s s_mid /\
    match rest with
    | [] => try_each f xs s = (Raise LyricsNotFoundError, s_mid)
    | x :: _ =>
        fst (f x s_mid) <> Raise LyricsNotFoundError /\
        try_each f xs s = f x s_mid
    end.
Proof.
  revert s. induction xs as [|x xs IH]; intros s.
  - exists [], [], s. repeat split. constructor.
  - destruct (f x s) as [r s1] eqn:Hx.
    assert (Hcases : r = Raise LyricsNotFoundError \/ r <> Raise LyricsNotFoundError).
    { destruct r as [v|[]]; auto; right; discriminate. }
    destruct Hcases as [->|Hok].
    + destruct (IH s1) as (pre & rest & s_mid & -> & Hpre & Hrest).
      exists (x :: pre), rest, s_mid. split; [done|]. split.
      * econstructor; eauto.
      * rewrite (try_each_not_found _ _ _ _ Hx). exact Hrest.
    + exists [], (x :: xs), s. split; [done|]. split; [constructor|].
      rewrite try_each_stops; rewrite Hx; done.
Qed.

Lemma try_each_not_found_iff xs s :
  fst (try_each f xs s) = Raise LyricsNotFoundError <->
  exists s', all_not_found f xs s s'.
Proof.
  split.
  - destruct (try_each_decompose xs s) as (pre & rest & s_mid & -> & Hpre & Hrest).
    destruct rest as [|x rest].
    + rewrite app_nil_r. eauto.
    + destruct Hrest as [Hx ->]. done.
  - intros [s' H]. by rewrite (try_each_all_not_found _ _ _ H).
Qed.

End TryEach.

(** ** The orchestrator *)

Section Orchestrator.
Context {S : Type}.
Import MutipleLyricsSearcher.

Lemma spy_result position (c : searcher S) artist title strict s log :
  spy position c artist title strict (s, log) =
  (fst (c artist title strict s),
   (snd (c artist title strict s), log ++ [mkCall position artist title strict])).
Proof. unfold spy. simpl. by destruct (c artist title strict s). Qed.

(** The calls that spying adapters record are those of the adapters that
    raised [LyricsNotFoundError] and of the first one that did not. *)
Lemma try_each_spy artist title strict (pre rest : list (searcher S)) s s_mid :
  let run := fun c : searcher S => c artist title strict in
  let run' := fun c : searcher (S * list call) => c artist title strict in
  all_not_found run pre s s_mid ->
  match rest with
  | [] => True
  | c :: _ => fst (run c s_mid) <> Raise LyricsNotFoundError
  end ->
  forall k log,
    try_each run' (imap (fun i => spy (k + i)) (pre ++ rest)) (s, log) =
    (fst (try_each run rest s_mid),
     (snd (try_each run rest s_mid),
      log ++ imap (fun i _ => mkCall (k + i) artist title strict) (pre ++ take 1 rest))).
Proof.
  intros run run' Hpre Hrest.
  induction Hpre as [s|c pre s s1 s2 Hc _ IH]; intros k log.
  - destruct rest as [|c rest].
    + simpl. by rewrite app_nil_r.
    + rewrite app_nil_l, imap_cons.
      rewrite (try_each_stops run'), (try_each_stops run c rest s Hrest).
      * unfold run'. by rewrite spy_result.
      * unfold run'. rewrite spy_result. exact Hrest.
  - rewrite <- app_comm_cons, imap_cons.
    rewrite (try_each_not_found run' _ _ (s, log)
               (s1, log ++ [mkCall (k + 0) artist title strict])); last first.
    { unfold run'. rewrite spy_result. fold (run c s). by rewrite Hc. }
    rewrite (imap_ext _ (fun i => spy (Datatypes.S k + i))); last first.
    { intros i x _. simpl. f_equal. lia. }
    rewrite (IH Hrest (Datatypes.S k)). f_equal. f_equal.
    rewrite <- app_assoc. f_equal. simpl. f_equal.
    apply imap_ext. intros i x _. simpl. f_equal. lia.
Qed.

End Orchestrator.

(** C1: [search] invokes the adapters of [searcher_classes] in order, each with
    the same artist, title and strictness flag, for as long as they raise
    [LyricsNotFoundError]; the first adapter that does not ends the loop, and
    its outcome, a returned text or an exception that is not
    [LyricsNotFoundError], is the outcome of [search], in the state that adapter
    left.  Spying adapters record exactly these invocations and no later one.
    [search] raises [LyricsNotFoundError] exactly when every adapter does. *)
Theorem search_first_success {S : Type} (self : MutipleLyricsSearcher.Self S)
    (artist title : pystr) (s : S) :
  let strict := MutipleLyricsSearcher.strict self in
  let classes := MutipleLyricsSearcher.searcher_classes self in
  let run := fun c : MutipleLyricsSearcher.searcher S => c artist title strict in
  exists pre rest s_mid,
    classes = pre ++ rest /\
    all_not_found run pre s s_mid /\
    match rest with
    | [] =>
        MutipleLyricsSearcher.search self artist title s
        = (Raise LyricsNotFoundError, s_mid)
    | c :: _ =>
        fst (run c s_mid) <> Raise LyricsNotFoundError /\
        MutipleLyricsSearcher.search self artist title s = run c s_mid
    end /\
    MutipleLyricsSearcher.search
      (MutipleLyricsSearcher.mkSelf (imap spy classes) strict) artist title (s, [])
    = (fst (MutipleLyricsSearcher.search self artist title s),
       (snd (MutipleLyricsSearcher.search self artist title s),
        imap (fun i _ => mkCall i artist title strict) (pre ++ take 1 rest))) /\
    (fst (MutipleLyricsSearcher.search self artist title s)
     = Raise LyricsNotFoundError
     <-> exists s', all_not_found run classes s s').
Proof.
  intros strict classes run. unfold MutipleLyricsSearcher.search.
  fold strict classes run. simpl.
  destruct (try_each_decompose run classes s)
    as (pre & rest & s_mid & Hsplit & Hpre & Hrest).
  exists pre, rest, s_mid. split; [done|]. split; [done|]. split; [done|].
  split; [|apply try_each_not_found_iff].
  assert (Hcond : match rest with
                  | [] => True
                  | c :: _ => fst (run c s_mid) <> Raise LyricsNotFoundError
                  end) by (destruct rest; [done|apply Hrest]).
  pose proof (try_each_spy artist title strict pre rest s s_mid Hpre Hcond 0 [])
    as Hspy.
  pose proof (try_each_all_not_found_app run pre rest s s_mid Hpre) as Happ.
  rewrite Hsplit.
  exact (eq_ind_r (fun t => _ = (fst t, (snd t, _))) Hspy Happ).
Qed.

(** ** The fuzzy title expander *)

Lemma str_replace_char (old new : N) (s : pystr) :
  str_replace [old] [new] s = map (fun c => if (c =? old)%N then new else c) s.
Proof.
  unfold str_replace. induction s as [|c s IH]; [done|].
  cbn [sub_scan map]. unfold match_literal at 1. cbn [startswith length].
  rewrite (N.eqb_sym old c), andb_true_r.
  destruct (c =? old)%N; cbn [pred app]; by rewrite IH.
Qed.

Lemma contains_char (c : N) (s : pystr) : contains [c] s = occurs c s.
Proof.
  induction s as [|x s IH]; [done|].
  simpl. rewrite IH. by rewrite andb_true_r.
Qed.

Lemma replace_to_halfwidth (title : pystr) :
  str_replace [fullwidth_exclamation] [halfwidth_exclamation]
    (str_replace [fullwidth_question] [halfwidth_question] title)
  = to_halfwidth title.
Proof.
  rewrite !str_replace_char. unfold to_halfwidth. rewrite map_map.
  apply map_ext. intros c. by destruct (c =? fullwidth_question)%N.
Qed.

Lemma replace_to_fullwidth (title : pystr) :
  str_replace [halfwidth_exclamation] [fullwidth_exclamation]
    (str_replace [halfwidth_question] [fullwidth_question] title)
  = to_fullwidth title.
Proof.
  rewrite !str_replace_char. unfold to_fullwidth. rewrite map_map.
  apply map_ext. intros c. by destruct (c =? halfwidth_question)%N.
Qed.

Lemma fuzzy_titles_spec (title : pystr) :
  MutipleLyricsSearcher.fuzzy_titles title =
  [title]
  ++ (if occurs fullwidth_question title || occurs fullwidth_exclamation title
      then [to_halfwidth title] else [])
  ++ (if occurs halfwidth_question title || occurs halfwidth_exclamation title
      then [to_fullwidth title] else []).
Proof.
  unfold MutipleLyricsSearcher.fuzzy_titles.
  rewrite !contains_char, replace_to_halfwidth, replace_to_fullwidth.
  destruct (occurs fullwidth_question title || occurs fullwidth_exclamation title);
    destruct (occurs halfwidth_question title || occurs halfwidth_exclamation title);
    reflexivity.
Qed.

(** C4: the variant list of [fuzzy_title_search] is the original title, then,
    when the original contains a full-width question or exclamation mark, the
    original with these two characters made half-width, then, when the original
    contains a half-width one, the original with these made full-width.  So
    "Hello" with a full-width question mark gives two variants, "Hi!" gives
    two, and a title with both widths gives three, each computed from the
    original.  [search] runs on the variants in order with the same artist and
    the same strictness, the first variant on which it does not raise
    [LyricsNotFoundError] gives the outcome, and [LyricsNotFoundError] is raised
    exactly when every variant raised it. *)
Theorem fuzzy_title_search_variants {S : Type}
    (self : MutipleLyricsSearcher.Self S) (artist title : pystr) (s : S) :
  MutipleLyricsSearcher.fuzzy_titles title =
    [title]
    ++ (if occurs fullwidth_question title || occurs fullwidth_exclamation title
        then [to_halfwidth title] else [])
    ++ (if occurs halfwidth_question title || occurs halfwidth_exclamation title
        then [to_fullwidth title] else []) /\
  MutipleLyricsSearcher.fuzzy_titles (u "Hello" ++ [fullwidth_question]) =
    [u "Hello" ++ [fullwidth_question]; u "Hello?"] /\
  MutipleLyricsSearcher.fuzzy_titles (u "Hi!") =
    [u "Hi!"; u "Hi" ++ [fullwidth_exclamation]] /\
  MutipleLyricsSearcher.fuzzy_titles (u "Oh!" ++ [fullwidth_question]) =
    [u "Oh!" ++ [fullwidth_question];
     u "Oh!?";
     u "Oh" ++ [fullwidth_exclamation; fullwidth_question]] /\
  (exists pre rest s_mid,
     MutipleLyricsSearcher.fuzzy_titles title = pre ++ rest /\
     all_not_found (MutipleLyricsSearcher.search self artist) pre s s_mid /\
     match rest with
     | [] =>
         MutipleLyricsSearcher.fuzzy_title_search self artist title s
         = (Raise LyricsNotFoundError, s_mid)
     | variant :: _ =>
         fst (MutipleLyricsSearcher.search self artist variant s_mid)
         <> Raise LyricsNotFoundError /\
         MutipleLyricsSearcher.fuzzy_title_search self artist title s
         = MutipleLyricsSearcher.search self artist variant s_mid
     end) /\
  (fst (MutipleLyricsSearcher.fuzzy_title_search self artist title s)
   = Raise LyricsNotFoundError
   <-> exists s', all_not_found (MutipleLyricsSearcher.search self artist)
                    (MutipleLyricsSearcher.fuzzy_titles title) s s').
Proof.
  split; [apply fuzzy_titles_spec|].
  split; [reflexivity|]. split; [reflexivity|]. split; [reflexivity|].
  unfold MutipleLyricsSearcher.fuzzy_title_search. split.
  - apply (try_each_decompose (MutipleLyricsSearcher.search self artist)).
  - apply (try_each_not_found_iff (MutipleLyricsSearcher.search self artist)).
Qed.

(** ** Candidate selection *)

Section Selection.
Context `{Runtime}.

Lemma first_char_matches_nonempty (a b : pystr) :
  a <> [] -> b <> [] -> first_char_matches a b = Return (first_char_equal a b).
Proof. destruct a, b; done. Qed.

Lemma first_char_matches_true (a b : pystr) :
  first_char_equal a b = true -> first_char_matches a b = Return true.
Proof.
  destruct a, b; try done. unfold first_char_equal, first_char_matches.
  cbn [index0 result_bind]. by intros ->.
Qed.

Lemma first_char_matches_empty (a b : pystr) :
  a = [] \/ b = [] -> first_char_matches a b = Raise IndexError.
Proof. intros [-> | ->]; [done|]. by destruct a. Qed.

(** A candidate without an artist element is skipped. *)
Lemma examine_no_artist (self : Self) n candidate :
  candidate_artist self candidate = None ->
  examine self n candidate = Return None.
Proof.
  unfold candidate_artist, examine.
  by destruct (select_one candidate _).
Qed.

(** With an artist and a URL, what is left of the body is the three tests. *)
Lemma examine_tests (self : Self) n candidate suggested_artist url :
  candidate_artist self candidate = Some suggested_artist ->
  candidate_url self candidate = Some url ->
  examine self n candidate =
  (single <-? (if Nat.eqb n 1
               then first_char_matches suggested_artist (artist self)
               else Return false) ;;
   if single then Return (Some url)
   else if bool_decide (suggested_artist = artist self) then Return (Some url)
   else
     loose <-? (if negb (strict self)
                then first_char_matches suggested_artist (artist self)
                else Return false) ;;
     if loose then Return (Some url) else Return None)%py.
Proof.
  unfold candidate_artist, candidate_url, examine.
  destruct (select_one candidate (search_result_artist_css_selector _))
    as [artist_tag|]; [|done].
  destruct (select_one candidate (search_result_lyrics_link_css_selector _))
    as [link_tag|]; [|done].
  simpl. destruct (tag_get link_tag (u "href")) as [href|]; [|done].
  simpl. by intros [= <-] [= <-].
Qed.

(** In a sequence that is not a singleton, a usable candidate is returned
    exactly when the selection rule selects it. *)
Lemma examine_selects (self : Self) n candidate :
  n <> 1 -> artist self <> [] ->
  has_artist_text_and_href self candidate = true ->
  examine self n candidate =
  Return (if selects self candidate then candidate_url self candidate else None).
Proof.
  intros Hn Hartist Hwf. unfold has_artist_text_and_href, selects in *.
  destruct (candidate_artist self candidate) as [a|] eqn:Ha;
    [|by apply examine_no_artist].
  apply andb_prop in Hwf as [Htext Hurl].
  apply negb_true_iff, bool_decide_eq_false in Htext.
  apply bool_decide_eq_true in Hurl as [url Hurl].
  rewrite (examine_tests _ _ _ _ _ Ha Hurl), Hurl.
  apply Nat.eqb_neq in Hn. rewrite Hn. simpl.
  destruct (bool_decide (a = artist self)); [done|]. simpl.
  destruct (strict self); [done|]. simpl.
  rewrite first_char_matches_nonempty by done. simpl.
  by destruct (first_char_equal a (artist self)).
Qed.

(** A usable candidate never makes the body raise. *)
Lemma examine_usable (self : Self) n candidate :
  artist self <> [] ->
  has_artist_text_and_href self candidate = true ->
  exists outcome, examine self n candidate = Return outcome.
Proof.
  intros Hartist Hwf. unfold has_artist_text_and_href in Hwf.
  destruct (candidate_artist self candidate) as [a|] eqn:Ha;
    [|rewrite examine_no_artist by done; eauto].
  apply andb_prop in Hwf as [Htext Hurl].
  apply negb_true_iff, bool_decide_eq_false in Htext.
  apply bool_decide_eq_true in Hurl as [url Hurl].
  rewrite (examine_tests _ _ _ _ _ Ha Hurl).
  rewrite !first_char_matches_nonempty by done.
  destruct (Nat.eqb n 1), (first_char_equal a (artist self)),
    (bool_decide (a = artist self)), (strict self); simpl; eauto.
Qed.

Lemma find_lyrics_link_loop_passed (self : Self) n pre rest :
  Forall (fun candidate => examine self n candidate = Return None) pre ->
  find_lyrics_link_loop self n (pre ++ rest) = find_lyrics_link_loop self n rest.
Proof.
  induction 1 as [|candidate pre Hc _ IH]; [done|].
  simpl. by rewrite Hc.
Qed.

Lemma find_lyrics_link_loop_raises (self : Self) n candidate rest e :
  examine self n candidate = Raise e ->
  find_lyrics_link_loop self n (candidate :: rest) = Raise e.
Proof. intros Hc. simpl. by rewrite Hc. Qed.

Lemma find_lyrics_link_loop_selects (self : Self) n candidates :
  n <> 1 -> artist self <> [] ->
  forallb (has_artist_text_and_href self) candidates = true ->
  match List.find (selects self) candidates with
  | Some candidate =>
      exists url, candidate_url self candidate = Some url /\
                  find_lyrics_link_loop self n candidates = Return url
  | None => find_lyrics_link_loop self n candidates = Raise LyricsNotFoundError
  end.
Proof.
  intros Hn Hartist. induction candidates as [|c cs IH]; [done|].
  intros Hwf. simpl in Hwf. apply andb_prop in Hwf as [Hc Hcs].
  simpl. rewrite (examine_selects _ _ _ Hn Hartist Hc).
  destruct (selects self c) eqn:Hsel; [|by apply IH].
  unfold has_artist_text_and_href, selects in Hc, Hsel.
  destruct (candidate_artist self c); [|done].
  apply andb_prop in Hc as [_ Hurl].
  apply bool_decide_eq_true in Hurl as [url Hurl].
  exists url. by rewrite Hurl.
Qed.

Lemma find_lyrics_link_loop_total (self : Self) n candidates :
  artist self <> [] ->
  forallb (has_artist_text_and_href self) candidates = true ->
  url_or_not_found (find_lyrics_link_loop self n candidates).
Proof.
  intros Hartist. induction candidates as [|c cs IH]; [done|].
  intros Hwf. simpl in Hwf. apply andb_prop in Hwf as [Hc Hcs].
  destruct (examine_usable self n c Hartist Hc) as [outcome Hex].
  simpl. rewrite Hex. destruct outcome; [done|by apply IH].
Qed.

End Selection.

(** C2, as the code has it: for a sequence of more than one candidate, when
    the query artist is not empty and every candidate with an artist element
    has a non-empty artist text and a link element with an [href],
    [find_lyrics_link] returns the URL of the first candidate, in sequence
    order, whose artist equals the query artist or, with strictness off, whose
    first character equals that of the query artist up to case; candidates
    without an artist element are never selected; when no candidate is selected
    it raises [LyricsNotFoundError]. *)
Theorem find_lyrics_link_selection `{Runtime} (self : Self) (candidates : list Tag) :
  1 < length candidates ->
  artist self <> [] ->
  forallb (has_artist_text_and_href self) candidates = true ->
  selection_rule self candidates.
Proof.
  intros Hlen Hartist Hwf. unfold selection_rule, find_lyrics_link.
  apply find_lyrics_link_loop_selects; [lia|done|done].
Qed.

Lemma find_lyrics_link_selection_witness :
  1 < length Demo.petit_rows /\
  artist (Demo.fan PetitLyricsSearcher false) <> [] /\
  forallb (has_artist_text_and_href (Demo.fan PetitLyricsSearcher false))
    Demo.petit_rows = true /\
  @selection_rule Demo.runtime (Demo.fan PetitLyricsSearcher false) Demo.petit_rows.
Proof.
  assert (H1 : 1 < length Demo.petit_rows) by (simpl; lia).
  assert (H2 : artist (Demo.fan PetitLyricsSearcher false) <> []) by discriminate.
  assert (H3 : forallb (has_artist_text_and_href (Demo.fan PetitLyricsSearcher false))
                 Demo.petit_rows = true) by (vm_compute; reflexivity).
  repeat split; try assumption.
  exact (@find_lyrics_link_selection Demo.runtime _ _ H1 H2 H3).
Defined.

(** C2 as stated fails when the query artist is empty: with strictness off and
    two candidates that both show an artist and a link, no candidate is
    selected by the rule, and the code raises [IndexError], not
    [LyricsNotFoundError]. *)
Lemma find_lyrics_link_selection_empty_artist :
  1 < length Demo.utanet_rows /\
  List.find (@selects Demo.runtime (Demo.nameless UtanetSearcher false))
    Demo.utanet_rows = None /\
  @find_lyrics_link Demo.runtime (Demo.nameless UtanetSearcher false)
    Demo.utanet_rows = Raise IndexError /\
  ~ @selection_rule Demo.runtime (Demo.nameless UtanetSearcher false)
      Demo.utanet_rows.
Proof.
  assert (Hfind : List.find (@selects Demo.runtime (Demo.nameless UtanetSearcher false))
                    Demo.utanet_rows = None) by (vm_compute; reflexivity).
  assert (Hrun : @find_lyrics_link Demo.runtime (Demo.nameless UtanetSearcher false)
                   Demo.utanet_rows = Raise IndexError) by (vm_compute; reflexivity).
  split; [simpl; lia|]. split; [exact Hfind|]. split; [exact Hrun|].
  unfold selection_rule. rewrite Hfind, Hrun. discriminate.
Qed.

(** C3, as the code has it: a single candidate whose artist field is parsable,
    which has a link element with an [href], and whose artist starts, up to
    case, with the first character of the query artist is accepted, and its
    lyrics URL is returned, whatever the strictness flag and whether or not
    the two artist strings are equal. *)
Theorem find_lyrics_link_single `{Runtime} (self : Self) (candidate : Tag)
    (suggested_artist url : pystr) :
  candidate_artist self candidate = Some suggested_artist ->
  first_char_equal suggested_artist (artist self) = true ->
  candidate_url self candidate = Some url ->
  find_lyrics_link self [candidate] = Return url.
Proof.
  intros Ha Hfirst Hurl. unfold find_lyrics_link. simpl.
  rewrite (examine_tests _ _ _ _ _ Ha Hurl). simpl.
  by rewrite (first_char_matches_true _ _ Hfirst).
Qed.

Lemma find_lyrics_link_single_witness :
  candidate_artist (Demo.fan PetitLyricsSearcher true)
    (Demo.row PetitLyricsSearcher (u "Flumpool (band)") (u "lyrics/3"))
  = Some (u "Flumpool (band)") /\
  @first_char_equal Demo.runtime (u "Flumpool (band)")
    (artist (Demo.fan PetitLyricsSearcher true)) = true /\
  u "Flumpool (band)" <> artist (Demo.fan PetitLyricsSearcher true) /\
  @find_lyrics_link Demo.runtime (Demo.fan PetitLyricsSearcher true)
    [Demo.row PetitLyricsSearcher (u "Flumpool (band)") (u "lyrics/3")]
  = Return (u "https://petitlyrics.com/lyrics/3").
Proof.
  split; [vm_compute; reflexivity|]. split; [vm_compute; reflexivity|].
  split; [discriminate|].
  apply (@find_lyrics_link_single Demo.runtime _ _ (u "Flumpool (band)"));
    vm_compute; reflexivity.
Defined.

(** C3 as stated fails for a candidate without a lyrics link.  A single
    candidate whose artist is parsable and starts with the first character of
    the query artist, up to case, is not accepted when it has no link element
    or when its link element has no [href]: the URL is built before the
    artists are compared, and the code raises [AttributeError] or
    [TypeError], in strict mode and out of it. *)
Lemma find_lyrics_link_single_without_link :
  (candidate_artist (Demo.fan UtanetSearcher true)
     (Demo.row_without_link UtanetSearcher (u "Flumpool"))
   = Some (u "Flumpool") /\
   @first_char_equal Demo.runtime (u "Flumpool")
     (artist (Demo.fan UtanetSearcher true)) = true /\
   @find_lyrics_link Demo.runtime (Demo.fan UtanetSearcher true)
     [Demo.row_without_link UtanetSearcher (u "Flumpool")]
   = Raise AttributeError /\
   @find_lyrics_link Demo.runtime (Demo.fan UtanetSearcher false)
     [Demo.row_without_link UtanetSearcher (u "Flumpool")]
   = Raise AttributeError) /\
  (candidate_artist (Demo.fan UtanetSearcher true)
     (Demo.row_without_href UtanetSearcher (u "Flumpool"))
   = Some (u "Flumpool") /\
   @find_lyrics_link Demo.runtime (Demo.fan UtanetSearcher true)
     [Demo.row_without_href UtanetSearcher (u "Flumpool")]
   = Raise TypeError /\
   @find_lyrics_link Demo.runtime (Demo.fan UtanetSearcher false)
     [Demo.row_without_href UtanetSearcher (u "Flumpool")]
   = Raise TypeError).
Proof. repeat split; vm_compute; reflexivity. Qed.

(** C10, as the code has it.  [find_lyrics_link] returns a URL or raises
    [LyricsNotFoundError] whenever the query artist is not empty and every
    candidate with an artist element has a non-empty artist text and a link
    element with an [href].  When the loop, having passed over the candidates
    before it, reaches a candidate with an artist element, it raises
    [AttributeError] if the candidate has no link element, [TypeError] if the
    link element has no [href], and [IndexError] if the candidate's artist text
    or the query artist is empty and a first-character test is made (the
    candidate is the only one, or strictness is off and the two artists
    differ): the candidate is not skipped and not-found is not reported. *)
Theorem find_lyrics_link_totality `{Runtime} (self : Self) :
  (forall candidates,
     artist self <> [] ->
     forallb (has_artist_text_and_href self) candidates = true ->
     url_or_not_found (find_lyrics_link self candidates)) /\
  (forall pre candidate rest suggested_artist,
     let candidates := pre ++ candidate :: rest in
     Forall (fun c => examine self (length candidates) c = Return None) pre ->
     candidate_artist self candidate = Some suggested_artist ->
     match select_one candidate (search_result_lyrics_link_css_selector (cls self)) with
     | None => find_lyrics_link self candidates = Raise AttributeError
     | Some link_tag =>
         match tag_get link_tag (u "href") with
         | None => find_lyrics_link self candidates = Raise TypeError
         | Some href =>
             suggested_artist = [] \/ artist self = [] ->
             length candidates = 1
             \/ (suggested_artist <> artist self /\ strict self = false) ->
             find_lyrics_link self candidates = Raise IndexError
         end
     end).
Proof.
  split.
  - intros candidates Hartist Hwf. by apply find_lyrics_link_loop_total.
  - intros pre candidate rest a candidates Hpre Ha.
    assert (Hloop : forall e,
               examine self (length candidates) candidate = Raise e ->
               find_lyrics_link self candidates = Raise e).
    { intros e He. unfold find_lyrics_link. unfold candidates at 2.
      rewrite (find_lyrics_link_loop_passed _ _ _ _ Hpre).
      by apply find_lyrics_link_loop_raises. }
    destruct (select_one candidate (search_result_lyrics_link_css_selector _))
      as [link_tag|] eqn:Hlink.
    + destruct (tag_get link_tag (u "href")) as [href|] eqn:Hhref.
      * intros Hempty Htested. apply Hloop.
        assert (Hurl : candidate_url self candidate
                       = Some (lyrics_base_url (cls self) ++ href)).
        { unfold candidate_url. rewrite Hlink. simpl. by rewrite Hhref. }
        rewrite (examine_tests _ _ _ _ _ Ha Hurl).
        rewrite (first_char_matches_empty _ _ Hempty).
        destruct Htested as [-> | [Hne ->]]; [done|].
        destruct (Nat.eqb (length candidates) 1); [done|]. simpl.
        by rewrite bool_decide_eq_false_2.
      * apply Hloop. unfold examine. unfold candidate_artist in Ha.
        destruct (select_one candidate (search_result_artist_css_selector _));
          [|done].
        by rewrite Hlink, Hhref.
    + apply Hloop. unfold examine. unfold candidate_artist in Ha.
      destruct (select_one candidate (search_result_artist_css_selector _));
        [|done].
      by rewrite Hlink.
Qed.

Lemma find_lyrics_link_totality_witness :
  url_or_not_found
    (@find_lyrics_link Demo.runtime (Demo.fan PetitLyricsSearcher false)
       Demo.petit_rows) /\
  @find_lyrics_link Demo.runtime (Demo.fan UtanetSearcher false)
    [Demo.empty_document; Demo.row_without_link UtanetSearcher (u "flumpool")]
  = Raise AttributeError /\
  @find_lyrics_link Demo.runtime (Demo.fan UtanetSearcher false)
    [Demo.row_without_href UtanetSearcher (u "flumpool")]
  = Raise TypeError /\
  @find_lyrics_link Demo.runtime (Demo.nameless UtanetSearcher false)
    Demo.utanet_rows
  = Raise IndexError.
Proof.
  split; [|split; [|split]].
  - apply (@find_lyrics_link_totality Demo.runtime (Demo.fan PetitLyricsSearcher false)).
    + discriminate.
    + vm_compute; reflexivity.
  - destruct (@find_lyrics_link_totality Demo.runtime (Demo.fan UtanetSearcher false))
      as [_ Hfails].
    refine (Hfails [Demo.empty_document]
              (Demo.row_without_link UtanetSearcher (u "flumpool")) []
              (u "flumpool") _ eq_refl).
    repeat constructor.
  - destruct (@find_lyrics_link_totality Demo.runtime (Demo.fan UtanetSearcher false))
      as [_ Hfails].
    refine (Hfails [] (Demo.row_without_href UtanetSearcher (u "flumpool")) []
              (u "flumpool") _ eq_refl).
    constructor.
  - destruct (@find_lyrics_link_totality Demo.runtime
                (Demo.nameless UtanetSearcher false)) as [_ Hfails].
    refine (Hfails [] (Demo.row UtanetSearcher (u "Kobukuro") (u "/song/1/"))
              [Demo.row UtanetSearcher (u "Mr.Children") (u "/song/2/")]
              (u "Kobukuro") _ eq_refl (or_intror eq_refl)
              (or_intror (conj _ eq_refl))).
    + constructor.
    + discriminate.
Defined.

(** C10 as stated fails in both directions.  A candidate whose link element has
    no [href] meets the stated preconditions, and the code raises [TypeError];
    an empty query artist is outside them, and in strict mode the code still
    reports [LyricsNotFoundError] on two candidates. *)
Lemma find_lyrics_link_totality_as_stated_fails :
  (artist (Demo.fan UtanetSearcher false) <> [] /\
   forallb (has_artist_text_and_link (Demo.fan UtanetSearcher false))
     [Demo.row_without_href UtanetSearcher (u "flumpool")] = true /\
   @find_lyrics_link Demo.runtime (Demo.fan UtanetSearcher false)
     [Demo.row_without_href UtanetSearcher (u "flumpool")] = Raise TypeError) /\
  (artist (Demo.nameless UtanetSearcher true) = [] /\
   @find_lyrics_link Demo.runtime (Demo.nameless UtanetSearcher true)
     Demo.utanet_rows = Raise LyricsNotFoundError).
Proof.
  split; [split; [discriminate|split]|split]; vm_compute; reflexivity.
Qed.

(** ** One adapter *)

Section Adapter.
Context `{Runtime}.

Lemma get_lyrics_url_run (self : Self) (w : World) :
  get_lyrics_url self w =
  (match http (requests w) (search_url (cls self) self) with
   | Content body =>
       find_lyrics_link self
         (tag_select (BeautifulSoup body) (search_result_css_selector (cls self)))
   | Failure code => Raise (ExternalError code)
   end,
   after_request w [search_url (cls self) self]).
Proof.
  unfold get_lyrics_url, bind, requests_get, lift, after_request.
  by destruct (http (requests w) (search_url (cls self) self)).
Qed.

Lemma get_lyrics_run (self : Self) (w : World) :
  get_lyrics self w =
  match fst (get_lyrics_url self w) with
  | Return url =>
      (match http (requests w ++ [search_url (cls self) self]) url with
       | Content body =>
           Return (postprocess (cls self)
                     (str_of (select_one (BeautifulSoup body)
                                (lyrics_css_selector (cls self)))))
       | Failure code => Raise (ExternalError code)
       end,
       after_request w [search_url (cls self) self; url])
  | Raise e => (Raise e, after_request w [search_url (cls self) self])
  end.
Proof.
  unfold get_lyrics. unfold bind at 1. rewrite get_lyrics_url_run.
  cbn [fst]. destruct (match http _ _ with Content _ => _ | Failure _ => _ end)
    as [url|e]; [|done].
  unfold bind, requests_get, ret, after_request. cbn [requests files stdout].
  rewrite <- app_assoc. cbn [app].
  by destruct (http (requests w ++ [search_url (cls self) self]) url).
Qed.

End Adapter.

(** C5, on the code: when the lyrics page has no element under the lyrics
    selector, [get_lyrics] does not raise; it returns the post-processed text
    of [str(None)]. *)
Theorem get_lyrics_missing_container `{Runtime} (self : Self) (w : World)
    (url body : pystr) :
  fst (get_lyrics_url self w) = Return url ->
  http (requests w ++ [search_url (cls self) self]) url = Content body ->
  select_one (BeautifulSoup body) (lyrics_css_selector (cls self)) = None ->
  get_lyrics self w =
  (Return (postprocess (cls self) (u "None")),
   after_request w [search_url (cls self) self; url]).
Proof.
  intros Hurl Hpage Hnone. rewrite get_lyrics_run, Hurl, Hpage, Hnone. done.
Qed.

Lemma get_lyrics_missing_container_witness :
  @get_lyrics Demo.runtime
    (init PetitLyricsSearcher (u "flumpool") (u "gone") false) Demo.world =
  (Return (u "None"),
   mkWorld [u "https://petitlyrics.com/search_lyrics?title=gone";
            u "https://petitlyrics.com/lyrics/3"] ∅ []).
Proof.
  exact (@get_lyrics_missing_container Demo.runtime
           (init PetitLyricsSearcher (u "flumpool") (u "gone") false) Demo.world
           (u "https://petitlyrics.com/lyrics/3")
           (u "https://petitlyrics.com/lyrics/3")
           eq_refl eq_refl eq_refl).
Defined.

(** C7: when the search-results page has no result row, [get_lyrics] raises
    [LyricsNotFoundError], after the one request for the search page. *)
Theorem get_lyrics_no_rows `{Runtime} (self : Self) (w : World) (body : pystr) :
  http (requests w) (search_url (cls self) self) = Content body ->
  tag_select (BeautifulSoup body) (search_result_css_selector (cls self)) = [] ->
  get_lyrics self w =
  (Raise LyricsNotFoundError, after_request w [search_url (cls self) self]).
Proof.
  intros Hpage Hrows. rewrite get_lyrics_run, get_lyrics_url_run, Hpage, Hrows.
  done.
Qed.

Lemma get_lyrics_no_rows_witness :
  @get_lyrics Demo.runtime (Demo.fan JLyricSearcher false) Demo.world =
  (Raise LyricsNotFoundError,
   mkWorld
     [u "http://search.j-lyric.net/index.php?kt=tsubomi&ct=2&ka=flumpool&ca=2"]
     ∅ []).
Proof.
  exact (@get_lyrics_no_rows Demo.runtime (Demo.fan JLyricSearcher false)
           Demo.world
           (u "http://search.j-lyric.net/index.php?kt=tsubomi&ct=2&ka=flumpool&ca=2")
           eq_refl eq_refl).
Defined.

(** C8: a call of [get_lyrics] that returns has made exactly two requests, for
    the search page and then for the lyrics page that [find_lyrics_link] chose;
    when [find_lyrics_link] raises [LyricsNotFoundError], [get_lyrics] raises it
    too and the request for the search page is the only one made. *)
Theorem get_lyrics_requests `{Runtime} (self : Self) (w : World) :
  (forall lyrics w',
     get_lyrics self w = (Return lyrics, w') ->
     exists url,
       fst (get_lyrics_url self w) = Return url /\
       requests w' = requests w ++ [search_url (cls self) self; url]) /\
  (forall body,
     http (requests w) (search_url (cls self) self) = Content body ->
     find_lyrics_link self
       (tag_select (BeautifulSoup body) (search_result_css_selector (cls self)))
     = Raise LyricsNotFoundError ->
     exists w',
       get_lyrics self w = (Raise LyricsNotFoundError, w') /\
       requests w' = requests w ++ [search_url (cls self) self]).
Proof.
  split.
  - intros lyrics w'. rewrite get_lyrics_run.
    destruct (fst (get_lyrics_url self w)) as [url|e]; [|done].
    intros [= _ <-]. by exists url.
  - intros body Hpage Hnone.
    exists (after_request w [search_url (cls self) self]). split; [|done].
    rewrite get_lyrics_run, get_lyrics_url_run, Hpage, Hnone. done.
Qed.

Lemma get_lyrics_requests_witness :
  (exists lyrics w',
     @get_lyrics Demo.runtime (Demo.fan PetitLyricsSearcher false) Demo.world
     = (Return lyrics, w') /\
     requests w' = [u "https://petitlyrics.com/search_lyrics?title=tsubomi";
                    u "https://petitlyrics.com/lyrics/2"]) /\
  (exists w',
     @get_lyrics Demo.runtime (Demo.fan UtanetSearcher false) Demo.world
     = (Raise LyricsNotFoundError, w') /\
     requests w' =
       [u "https://www.uta-net.com/search/?Aselect=2&Keyword=tsubomi&Bselect=4&x=0&y=0"]).
Proof.
  split.
  - destruct (@get_lyrics Demo.runtime (Demo.fan PetitLyricsSearcher false)
                Demo.world) as [r w'] eqn:Hrun.
    assert (Hr : r = Return (u "hana" ++ [newline] ++ u "saku")).
    { apply (f_equal fst) in Hrun. vm_compute in Hrun. by rewrite <- Hrun. }
    subst r. eexists _, w'. split; [reflexivity|].
    destruct (@get_lyrics_requests Demo.runtime
                (Demo.fan PetitLyricsSearcher false) Demo.world) as [Hfound _].
    destruct (Hfound _ _ Hrun) as (url & Hurl & ->).
    vm_compute in Hurl. by injection Hurl as <-.
  - destruct (@get_lyrics_requests Demo.runtime
                (Demo.fan UtanetSearcher false) Demo.world) as [_ Hnone].
    exact (Hnone
             (u "https://www.uta-net.com/search/?Aselect=2&Keyword=tsubomi&Bselect=4&x=0&y=0")
             eq_refl eq_refl).
Defined.

(** C6, as the code has it: each adapter builds its search URL by placing the
    title, and for [JLyricSearcher] the artist, into its template as they are;
    nothing is URL-encoded before the substitution. *)
Theorem search_url_verbatim (artist title : pystr) (strict : bool) :
  search_url UtanetSearcher (init UtanetSearcher artist title strict) =
    u "https://www.uta-net.com/search/?Aselect=2&Keyword=" ++ title
    ++ u "&Bselect=4&x=0&y=0" /\
  search_url JLyricSearcher (init JLyricSearcher artist title strict) =
    u "http://search.j-lyric.net/index.php?kt=" ++ title
    ++ u "&ct=2&ka=" ++ artist ++ u "&ca=2" /\
  search_url JLyricTitleSearcher (init JLyricTitleSearcher artist title strict) =
    u "http://search.j-lyric.net/index.php?kt=" ++ title ++ u "&ct=2&ka=&ca=2" /\
  search_url PetitLyricsSearcher (init PetitLyricsSearcher artist title strict) =
    u "https://petitlyrics.com/search_lyrics?title=" ++ title.
Proof. repeat split. Qed.

(** C6 as stated fails on a title and an artist with characters that URL
    encoding rewrites: the code leaves the space and the ampersand as they
    are. *)
Lemma search_url_not_encoded :
  search_url UtanetSearcher
    (init UtanetSearcher (u "Chage&Aska") (u "Say Yes") true)
  = u "https://www.uta-net.com/search/?Aselect=2&Keyword=Say Yes&Bselect=4&x=0&y=0" /\
  search_url_encoded UtanetSearcher (u "Chage&Aska") (u "Say Yes")
  = u "https://www.uta-net.com/search/?Aselect=2&Keyword=Say%20Yes&Bselect=4&x=0&y=0" /\
  search_url UtanetSearcher
    (init UtanetSearcher (u "Chage&Aska") (u "Say Yes") true)
  <> search_url_encoded UtanetSearcher (u "Chage&Aska") (u "Say Yes") /\
  search_url JLyricSearcher
    (init JLyricSearcher (u "Chage&Aska") (u "Say Yes") true)
  = u "http://search.j-lyric.net/index.php?kt=Say Yes&ct=2&ka=Chage&Aska&ca=2" /\
  search_url_encoded JLyricSearcher (u "Chage&Aska") (u "Say Yes")
  = u "http://search.j-lyric.net/index.php?kt=Say%20Yes&ct=2&ka=Chage%26Aska&ca=2" /\
  search_url JLyricSearcher
    (init JLyricSearcher (u "Chage&Aska") (u "Say Yes") true)
  <> search_url_encoded JLyricSearcher (u "Chage&Aska") (u "Say Yes").
Proof.
  repeat split; try (vm_compute; reflexivity);
    intros Heq; vm_compute in Heq; discriminate.
Qed.

(** ** The batch driver *)

Section Batch.
Context `{Runtime}.

Lemma quiet_try_each {X A} (f : X -> M World A) (xs : list X) :
  Forall (fun x => quiet (f x)) xs -> quiet (try_each f xs).
Proof.
  induction 1 as [|x xs Hx _ IH]; intros w; [done|].
  simpl. destruct (Hx w) as [Hfiles Hout].
  destruct (f x w) as [[v|e] w1]; [done|].
  destruct e; try done.
  destruct (IH w1) as [Hfiles' Hout']. simpl in *. split; congruence.
Qed.

Lemma quiet_get_lyrics (self : Self) : quiet (get_lyrics self).
Proof.
  intros w. rewrite get_lyrics_run.
  by destruct (fst (get_lyrics_url self w)).
Qed.

Lemma quiet_fuzzy_title_search (artist title : pystr) :
  quiet (MutipleLyricsSearcher.fuzzy_title_search batch_searcher artist title).
Proof.
  apply quiet_try_each, Forall_forall. intros variant _.
  apply quiet_try_each. repeat constructor; apply quiet_get_lyrics.
Qed.

Lemma lyrics_path_spec (artist title : pystr) :
  lyrics_path artist title
  = u "lyrics/" ++ without_slashes (artist ++ u "-" ++ title).
Proof. unfold lyrics_path. by rewrite (str_replace_char 47 95). Qed.


End Batch.

(** The body of the loop, by the outcome of the fuzzy search and of the
    writing of the file. *)
Lemma process_line_run `{Runtime} (line : pystr) (w : World) :
  process_line line w =
  match parse_line line with
  | Raise e => (Raise e, w)
  | Return (title, artist) =>
      match MutipleLyricsSearcher.fuzzy_title_search batch_searcher artist title w with
      | (Return lyrics, w') =>
          let reported :=
            stdout w ++ [u "Lyrics found: " ++ title ++ u "_" ++ artist ++ u ".txt"] in
          match file_write (lyrics_path artist title) lyrics with
          | Stored =>
              (Return tt,
               mkWorld (requests w') (<[lyrics_path artist title := lyrics]> (files w))
                 reported)
          | OpenFails errno =>
              (Raise (OSError errno), mkWorld (requests w') (files w) reported)
          | WriteFails e partial =>
              (Raise e,
               mkWorld (requests w') (<[lyrics_path artist title := partial]> (files w))
                 reported)
          end
      | (Raise LyricsNotFoundError, w') =>
          (Return tt,
           mkWorld (requests w') (files w)
             (stdout w ++ [u "Lyrics not found: " ++ title ++ u " - " ++ artist]))
      | (Raise e, w') => (Raise e, mkWorld (requests w') (files w) (stdout w))
      end
  end.
Proof.
  unfold process_line, bind, lift.
  destruct (parse_line line) as [[title artist]|e]; [|done].
  destruct (quiet_fuzzy_title_search artist title w) as [Hfiles Hout].
  destruct (MutipleLyricsSearcher.fuzzy_title_search batch_searcher artist title w)
    as [[lyrics|e] w']; simpl in Hfiles, Hout.
  - unfold print, write_file. cbn [requests files stdout].
    rewrite Hfiles, Hout.
    by destruct (file_write (lyrics_path artist title) lyrics).
  - destruct w' as [reqs fs out]; simpl in *; subst fs out.
    by destruct e.
Qed.




(** ** The scenarios of the specification, run *)

(** Of four adapters, the first two fail with [LyricsNotFoundError] and the
    third succeeds: its text is returned and the fourth is never invoked. *)
Example search_third_adapter :
  MutipleLyricsSearcher.search
    (MutipleLyricsSearcher.mkSelf
       (imap spy [Demo.failing LyricsNotFoundError;
                  Demo.failing LyricsNotFoundError;
                  Demo.succeeding (u "third");
                  Demo.succeeding (u "fourth")]) false)
    (u "flumpool") (u "tsubomi") (tt, [])
  = (Return (u "third"),
     (tt, [mkCall 0 (u "flumpool") (u "tsubomi") false;
           mkCall 1 (u "flumpool") (u "tsubomi") false;
           mkCall 2 (u "flumpool") (u "tsubomi") false])).
Proof. reflexivity. Qed.

(** An exception that is not [LyricsNotFoundError] ends the loop at once. *)
Example search_transport_failure :
  MutipleLyricsSearcher.search
    (MutipleLyricsSearcher.mkSelf
       (imap spy [Demo.failing LyricsNotFoundError;
                  Demo.failing (ExternalError 7);
                  Demo.succeeding (u "third")]) true)
    (u "flumpool") (u "tsubomi") (tt, [])
  = (Raise (ExternalError 7),
     (tt, [mkCall 0 (u "flumpool") (u "tsubomi") true;
           mkCall 1 (u "flumpool") (u "tsubomi") true])).
Proof. reflexivity. Qed.

(** The selection among the three rows of the demo page. *)
Example find_lyrics_link_petit_rows :
  @find_lyrics_link Demo.runtime (Demo.fan PetitLyricsSearcher true) Demo.petit_rows
  = Return (u "https://petitlyrics.com/lyrics/2").
Proof. vm_compute. reflexivity. Qed.

(** Post-processing of the four sites on small lyrics blocks. *)
Example postprocess_utanet :
  postprocess UtanetSearcher (u "<div id=kashi_area>hana<br/>saku<br>hi</br></div>")
  = u "hana" ++ [newline] ++ u "saku" ++ [newline] ++ u "hi".
Proof. vm_compute. reflexivity. Qed.

Example postprocess_jlyric :
  postprocess JLyricSearcher (u "<p id=Lyric>hana<br>saku</p>")
  = u "hana" ++ [newline] ++ u "saku".
Proof. vm_compute. reflexivity. Qed.

Example postprocess_petitlyrics :
  postprocess PetitLyricsSearcher
    (u "<div id=lyrics><canvas id=c></canvas>hana<br/>saku</div>")
  = u "hana" ++ [newline] ++ u "saku".
Proof. vm_compute. reflexivity. Qed.

(** The whole batch on the two demo lines: one file, two reports. *)
Example main_demo :
  let w := snd (@main Demo.runtime [Demo.lost_line; Demo.found_line] Demo.world) in
  files w = {[ u "lyrics/flumpool_yamamura-tsubomi"
               := u "hana" ++ [newline] ++ u "saku" ]} /\
  stdout w = [u "Lyrics not found: x - y";
              u "Lyrics found: tsubomi_flumpool/yamamura.txt"] /\
  length (requests w) = 8.
Proof. vm_compute. repeat split. Qed.

(** * Properties of the rest of the code *)

(** ** Post-processing *)

Section Postprocess.

Lemma startswith_app (p s : pystr) : startswith p (p ++ s) = true.
Proof. induction p as [|c p IH]; [done|]. simpl. by rewrite N.eqb_refl. Qed.

Lemma startswith_head (p : pystr) (c x : N) (s : pystr) :
  c <> x -> startswith (c :: p) (x :: s) = false.
Proof. intros Hne. simpl. by apply N.eqb_neq in Hne as ->. Qed.

(** While characters of a match are still to be dropped, they are dropped. *)
Lemma sub_scan_skip m repl (dropped s : pystr) :
  sub_scan m repl (length dropped) (dropped ++ s) = sub_scan m repl 0 s.
Proof. induction dropped as [|c dropped IH]; [by destruct s|]. exact IH. Qed.

Lemma sub_scan_match m repl (c : N) (matched s : pystr) :
  m (c :: matched ++ s) = Some (S (length matched)) ->
  sub_scan m repl 0 (c :: matched ++ s) = repl ++ sub_scan m repl 0 s.
Proof. intros Hm. simpl. rewrite Hm. simpl. by rewrite sub_scan_skip. Qed.

Lemma sub_scan_keep m repl (c : N) (s : pystr) :
  m (c :: s) = None ->
  sub_scan m repl 0 (c :: s) = c :: sub_scan m repl 0 s.
Proof. intros Hm. simpl. by rewrite Hm. Qed.

(** A pattern that can only match at a [<] leaves text without [<] alone. *)
Lemma sub_scan_no_lt m repl (s : pystr) :
  (forall c s', c <> lt_sign -> m (c :: s') = None) ->
  occurs lt_sign s = false ->
  sub_scan m repl 0 s = s.
Proof.
  intros Hm. induction s as [|c s IH]; [done|].
  unfold occurs. cbn [existsb]. intros Hs. apply orb_false_elim in Hs as [Hc Hs].
  rewrite sub_scan_keep, IH; [done|exact Hs|].
  apply Hm. intros ->. by rewrite N.eqb_refl in Hc.
Qed.

Lemma match_literal_lt (lit : pystr) (c : N) (s : pystr) :
  c <> lt_sign -> match_literal (lt_sign :: lit) (c :: s) = None.
Proof.
  intros Hne. unfold match_literal.
  rewrite startswith_head; [done|]. by intros <-.
Qed.

Lemma match_open_tag_lt (tag : pystr) (c : N) (s : pystr) :
  c <> lt_sign -> match_open_tag tag (c :: s) = None.
Proof.
  intros Hne. unfold match_open_tag. change (u "<" ++ tag) with (lt_sign :: tag).
  rewrite startswith_head; [done|]. by intros <-.
Qed.

Lemma tag_pattern_lt (tag : pystr) (c : N) (s : pystr) :
  c <> lt_sign -> tag_pattern tag (c :: s) = None.
Proof.
  intros Hne. unfold tag_pattern. cbn [match_alt].
  rewrite match_open_tag_lt by done.
  change (u "</" ++ tag ++ u ">") with (lt_sign :: slash :: tag ++ [gt_sign]).
  by rewrite match_literal_lt.
Qed.

Lemma remove_surrounding_no_lt (tag : literal) (target : pystr) :
  occurs lt_sign target = false -> remove_surrounding tag target = target.
Proof.
  intros Hs. apply sub_scan_no_lt; [|exact Hs].
  intros c s' Hne. by apply tag_pattern_lt.
Qed.

Lemma replace_br_no_lt (target : pystr) :
  occurs lt_sign target = false -> replace_br target = target.
Proof.
  intros Hs. unfold replace_br.
  rewrite (sub_scan_no_lt (match_literal (u "</br>"))); [|apply match_literal_lt|done].
  apply sub_scan_no_lt; [|exact Hs].
  intros c s' Hne. simpl.
  change (u "<br>") with (lt_sign :: u "br>").
  change (u "<br/>") with (lt_sign :: u "br/>").
  by rewrite !match_literal_lt.
Qed.

End Postprocess.

(** X1: lyrics without any [<] come out of the post-processing of each of the
    four sites exactly as they went in. *)
Theorem postprocess_plain_text (target : pystr) :
  occurs lt_sign target = false ->
  postprocess UtanetSearcher target = target /\
  postprocess JLyricSearcher target = target /\
  postprocess JLyricTitleSearcher target = target /\
  postprocess PetitLyricsSearcher target = target.
Proof.
  intros Hs. repeat split; simpl; unfold remove_div, remove_p;
    rewrite (remove_surrounding_no_lt _ target) by done;
    rewrite replace_br_no_lt by done; [done..|].
  by apply remove_surrounding_no_lt.
Qed.

Lemma postprocess_plain_text_witness :
  occurs lt_sign (u "hana > saku") = false /\
  postprocess PetitLyricsSearcher (u "hana > saku") = u "hana > saku".
Proof.
  split; [reflexivity|].
  apply (postprocess_plain_text (u "hana > saku")). reflexivity.
Defined.

Section Substitution.
Variable m : pystr -> option nat.

(** A prefix free of the substituted character, seen after the substitution,
    was already there before it. *)
Lemma sub_scan_startswith (r : N) (p s : pystr) :
  r ∉ p ->
  startswith p (sub_scan m [r] 0 s) = true -> startswith p s = true.
Proof.
  revert p. induction s as [|c s IH]; intros p Hr; [done|].
  destruct p as [|a p]; [done|].
  apply not_elem_of_cons in Hr as [Hra Hrp].
  cbn [sub_scan]. destruct (m (c :: s)) as [n|].
  - cbn [app startswith]. apply N.eqb_neq in Hra. by rewrite N.eqb_sym, Hra.
  - cbn [startswith]. intros Hp. apply andb_prop in Hp as [-> Hp].
    by rewrite (IH p Hrp Hp).
Qed.

(** Substituting one character for every match of a pattern leaves no
    occurrence of a literal that the pattern matches. *)
Lemma sub_scan_contains (r : N) (lit : pystr) :
  lit <> [] -> r ∉ lit ->
  (forall s, startswith lit s = true -> m s <> None) ->
  forall s skip, contains lit (sub_scan m [r] skip s) = false.
Proof.
  intros Hlit Hr Hm. induction s as [|c s IH]; intros skip.
  - by destruct lit.
  - cbn [sub_scan]. destruct skip as [|k]; [|apply IH].
    destruct (m (c :: s)) as [n|] eqn:Hmatch.
    + cbn [app contains]. rewrite IH, orb_false_r.
      destruct lit as [|a lit]; [done|].
      apply not_elem_of_cons in Hr as [Hra _].
      apply startswith_head. congruence.
    + cbn [contains]. rewrite IH, orb_false_r.
      destruct (startswith lit (c :: sub_scan m [r] 0 s)) eqn:Hp; [|done].
      assert (Hscan : sub_scan m [r] 0 (c :: s) = c :: sub_scan m [r] 0 s)
        by (by apply sub_scan_keep).
      rewrite <- Hscan in Hp. apply sub_scan_startswith in Hp; [|done].
      by destruct (Hm _ Hp).
Qed.

(** With nothing substituted, characters are only deleted. *)
Lemma sub_scan_sublist (s : pystr) (skip : nat) :
  sub_scan m [] skip s `sublist_of` s.
Proof.
  revert skip. induction s as [|c s IH]; intros skip; [done|].
  cbn [sub_scan]. destruct skip as [|k]; [|apply sublist_cons, IH].
  destruct (m (c :: s)); [apply sublist_cons, IH|apply sublist_skip, IH].
Qed.

(** With at most one character substituted per match, the text never grows. *)
Lemma sub_scan_length (repl s : pystr) (skip : nat) :
  length repl <= 1 ->
  length (sub_scan m repl skip s) <= length s.
Proof.
  intros Hrepl. revert skip. induction s as [|c s IH]; intros skip; [done|].
  cbn [sub_scan]. destruct skip as [|k].
  - destruct (m (c :: s)) as [n|].
    + rewrite length_app. specialize (IH (pred n)). simpl. lia.
    + specialize (IH 0). simpl. lia.
  - specialize (IH k). simpl. lia.
Qed.

End Substitution.

(** X2: what [replace_br] returns contains neither [<br>] nor [<br/>]. *)
Theorem replace_br_complete (target : pystr) :
  contains (u "<br>") (replace_br target) = false /\
  contains (u "<br/>") (replace_br target) = false.
Proof.
  unfold replace_br. split; apply sub_scan_contains; try done.
  - unfold newline. intros Hin. by repeat (apply elem_of_cons in Hin as [Hin|Hin]; [done|]);
      apply elem_of_nil in Hin.
  - intros s Hs. simpl. unfold match_literal at 1. by rewrite Hs.
  - unfold newline. intros Hin. by repeat (apply elem_of_cons in Hin as [Hin|Hin]; [done|]);
      apply elem_of_nil in Hin.
  - intros s Hs. simpl. unfold match_literal.
    rewrite Hs. by destruct (startswith (u "<br>") s).
Qed.

(** X3: for a tag in which every character stands for itself in a pattern,
    [remove_surrounding] only deletes characters; and the post-processing of
    each of the four sites never returns a text longer than the one it was
    given. *)
Theorem postprocess_never_longer (tag : literal) (target : pystr) :
  remove_surrounding tag target `sublist_of` target /\
  length (replace_br target) <= length target /\
  length (postprocess UtanetSearcher target) <= length target /\
  length (postprocess JLyricSearcher target) <= length target /\
  length (postprocess JLyricTitleSearcher target) <= length target /\
  length (postprocess PetitLyricsSearcher target) <= length target.
Proof.
  assert (Hdel : forall tag s, length (remove_surrounding tag s) <= length s).
  { intros tag' s. apply sublist_length, sub_scan_sublist. }
  assert (Hbr : forall s, length (replace_br s) <= length s).
  { intros s. unfold replace_br.
    etransitivity; [apply sub_scan_length; simpl; lia|].
    apply sub_scan_length. simpl. lia. }
  split; [apply sub_scan_sublist|]. split; [apply Hbr|].
  repeat split; simpl; unfold remove_div, remove_p.
  - etransitivity; [apply Hbr|apply Hdel].
  - etransitivity; [apply Hbr|apply Hdel].
  - etransitivity; [apply Hbr|apply Hdel].
  - etransitivity; [apply Hdel|]. etransitivity; [apply Hbr|apply Hdel].
Qed.

Section Tags.
Variables (name : literal) (c0 : N) (tag' : pystr).
Hypothesis Hname : literal_text name = c0 :: tag'.
Hypothesis Hc0 : c0 <> slash.
Let tag : pystr := c0 :: tag'.
Let m : pystr -> option nat := tag_pattern tag.

Lemma lazy_dots_gt_found (attrs rest : pystr) :
  occurs gt_sign attrs = false -> occurs newline attrs = false ->
  lazy_dots_gt (attrs ++ gt_sign :: rest) = Some (S (length attrs)).
Proof.
  induction attrs as [|a attrs IH]; [done|].
  unfold occurs. cbn [existsb]. intros Hgt Hnl.
  apply orb_false_elim in Hgt as [Hgt Hgt']. apply orb_false_elim in Hnl as [Hnl Hnl'].
  cbn [app lazy_dots_gt]. change 62%N with gt_sign.
  rewrite (N.eqb_sym a gt_sign), Hgt, (N.eqb_sym a newline), Hnl.
  by rewrite (IH Hgt' Hnl').
Qed.

Lemma lazy_dots_gt_newline (attrs rest : pystr) :
  occurs gt_sign attrs = false ->
  lazy_dots_gt (attrs ++ newline :: rest) = None.
Proof.
  induction attrs as [|a attrs IH]; [done|].
  unfold occurs. cbn [existsb]. intros Hgt.
  apply orb_false_elim in Hgt as [Hgt Hgt'].
  cbn [app lazy_dots_gt]. change 62%N with gt_sign.
  rewrite (N.eqb_sym a gt_sign), Hgt. destruct (a =? newline)%N; [done|].
  by rewrite (IH Hgt').
Qed.

Lemma m_not_lt (c : N) (s : pystr) : c <> lt_sign -> m (c :: s) = None.
Proof. apply tag_pattern_lt. Qed.

Lemma m_open (attrs rest : pystr) :
  occurs gt_sign attrs = false -> occurs newline attrs = false ->
  m (lt_sign :: (tag ++ attrs ++ [gt_sign]) ++ rest)
  = Some (S (length (tag ++ attrs ++ [gt_sign]))).
Proof.
  intros Hgt Hnl. unfold m, tag_pattern. cbn [match_alt]. unfold match_open_tag.
  change (u "<" ++ tag) with (lt_sign :: tag).
  replace (lt_sign :: (tag ++ attrs ++ [gt_sign]) ++ rest)
    with ((lt_sign :: tag) ++ attrs ++ gt_sign :: rest)
    by (by rewrite <- !app_assoc).
  rewrite startswith_app, drop_app_length, lazy_dots_gt_found by done.
  simpl. rewrite !length_app. simpl. do 2 f_equal. lia.
Qed.

Lemma match_open_tag_broken (attrs rest : pystr) :
  occurs gt_sign attrs = false ->
  match_open_tag tag (lt_sign :: tag ++ attrs ++ newline :: rest) = None.
Proof.
  intros Hgt. unfold match_open_tag.
  change (u "<" ++ tag) with (lt_sign :: tag).
  change (lt_sign :: tag ++ attrs ++ newline :: rest)
    with ((lt_sign :: tag) ++ attrs ++ newline :: rest).
  by rewrite startswith_app, drop_app_length, lazy_dots_gt_newline.
Qed.

Lemma match_open_tag_close (s : pystr) :
  match_open_tag tag (lt_sign :: slash :: s) = None.
Proof.
  unfold match_open_tag. change (u "<" ++ tag) with (lt_sign :: c0 :: tag').
  cbn [startswith]. apply N.eqb_neq in Hc0. by rewrite Hc0, andb_false_r.
Qed.

Lemma match_close_open (s : pystr) :
  match_literal (u "</" ++ tag ++ u ">") (lt_sign :: c0 :: s) = None.
Proof.
  unfold match_literal.
  change (u "</" ++ tag ++ u ">") with (lt_sign :: slash :: tag ++ [gt_sign]).
  cbn [startswith]. apply N.eqb_neq in Hc0.
  by rewrite (N.eqb_sym slash c0), Hc0, andb_false_r.
Qed.

Lemma m_open_broken (attrs rest : pystr) :
  occurs gt_sign attrs = false ->
  m (lt_sign :: tag ++ attrs ++ newline :: rest) = None.
Proof.
  intros Hgt. unfold m, tag_pattern. cbn [match_alt].
  rewrite match_open_tag_broken by done.
  pose proof (match_close_open (tag' ++ attrs ++ newline :: rest)) as Hclose.
  change (lt_sign :: c0 :: tag' ++ attrs ++ newline :: rest)
    with (lt_sign :: tag ++ attrs ++ newline :: rest) in Hclose.
  by rewrite Hclose.
Qed.

Lemma m_close (rest : pystr) :
  m (lt_sign :: (slash :: tag ++ [gt_sign]) ++ rest)
  = Some (S (length (slash :: tag ++ [gt_sign]))).
Proof.
  unfold m, tag_pattern. cbn [match_alt]. cbn [app]. rewrite match_open_tag_close.
  unfold match_literal.
  change (u "</" ++ tag ++ u ">") with (lt_sign :: slash :: tag ++ [gt_sign]).
  change (lt_sign :: slash :: (tag ++ [gt_sign]) ++ rest)
    with ((lt_sign :: slash :: tag ++ [gt_sign]) ++ rest).
  by rewrite startswith_app.
Qed.

Lemma sub_scan_plain (body rest : pystr) :
  occurs lt_sign body = false ->
  sub_scan m [] 0 (body ++ rest) = body ++ sub_scan m [] 0 rest.
Proof.
  induction body as [|c body IH]; [done|].
  unfold occurs. cbn [existsb]. intros Hs. apply orb_false_elim in Hs as [Hc Hs].
  cbn [app]. rewrite sub_scan_keep, (IH Hs); [done|].
  apply m_not_lt. intros ->. by rewrite N.eqb_refl in Hc.
Qed.

Lemma remove_surrounding_scan (target : pystr) :
  remove_surrounding name target = sub_scan m [] 0 target.
Proof. unfold remove_surrounding. by rewrite Hname. Qed.

(** An opening tag at the head goes, with all its attributes. *)
Lemma remove_surrounding_open (attrs rest : pystr) :
  occurs gt_sign attrs = false -> occurs newline attrs = false ->
  remove_surrounding name (u "<" ++ literal_text name ++ attrs ++ u ">" ++ rest)
  = remove_surrounding name rest.
Proof.
  intros Hgt Hnl. rewrite !remove_surrounding_scan, Hname. fold tag.
  replace (u "<" ++ tag ++ attrs ++ u ">" ++ rest)
    with (lt_sign :: (tag ++ attrs ++ [gt_sign]) ++ rest)
    by (by rewrite <- !app_assoc).
  by rewrite (sub_scan_match m [] _ _ _ (m_open attrs rest Hgt Hnl)).
Qed.

(** A closing tag at the head goes. *)
Lemma remove_surrounding_close (rest : pystr) :
  remove_surrounding name (u "</" ++ literal_text name ++ u ">" ++ rest)
  = remove_surrounding name rest.
Proof.
  rewrite !remove_surrounding_scan, Hname. fold tag.
  replace (u "</" ++ tag ++ u ">" ++ rest)
    with (lt_sign :: (slash :: tag ++ [gt_sign]) ++ rest)
    by (simpl; by rewrite <- !app_assoc).
  by rewrite (sub_scan_match m [] _ _ _ (m_close rest)).
Qed.

(** Text without [<] at the head stays. *)
Lemma remove_surrounding_plain (body rest : pystr) :
  occurs lt_sign body = false ->
  remove_surrounding name (body ++ rest) = body ++ remove_surrounding name rest.
Proof. intros Hs. rewrite !remove_surrounding_scan. by apply sub_scan_plain. Qed.

(** An opening tag broken by a newline before its [>] keeps its [<]. *)
Lemma remove_surrounding_broken (attrs rest : pystr) :
  occurs gt_sign attrs = false ->
  remove_surrounding name (u "<" ++ literal_text name ++ attrs ++ newline :: rest)
  = lt_sign
    :: remove_surrounding name (literal_text name ++ attrs ++ newline :: rest).
Proof.
  intros Hgt. rewrite !remove_surrounding_scan, Hname. fold tag.
  change (u "<" ++ tag ++ attrs ++ newline :: rest)
    with (lt_sign :: tag ++ attrs ++ newline :: rest).
  by rewrite (sub_scan_keep m [] _ _ (m_open_broken attrs rest Hgt)).
Qed.

End Tags.

(** X4: for a tag in which every character stands for itself in a pattern
    and which does not start with [/], [remove_surrounding] unwraps an
    element: from an opening tag whose name starts with the tag, with any
    attributes on one line, a body without [<] and the closing tag, the body
    is what is left. *)
Theorem remove_surrounding_unwraps (tag : literal) (c0 : N)
    (tag' attrs body : pystr) :
  literal_text tag = c0 :: tag' ->
  c0 <> slash ->
  occurs gt_sign attrs = false ->
  occurs newline attrs = false ->
  occurs lt_sign body = false ->
  remove_surrounding tag
    (u "<" ++ literal_text tag ++ attrs ++ u ">" ++ body
     ++ u "</" ++ literal_text tag ++ u ">")
  = body.
Proof.
  intros Htag Hc0 Hgt Hnl Hlt.
  rewrite remove_surrounding_open with (c0 := c0) (tag' := tag') (attrs := attrs)
    by done.
  rewrite remove_surrounding_plain with (c0 := c0) (tag' := tag') (body := body)
    by done.
  assert (Hclose : remove_surrounding tag (u "</" ++ literal_text tag ++ u ">" ++ [])
                   = remove_surrounding tag [])
    by (by apply remove_surrounding_close with (c0 := c0) (tag' := tag')).
  rewrite app_nil_r in Hclose. rewrite Hclose.
  rewrite (remove_surrounding_no_lt tag []) by done. by rewrite app_nil_r.
Qed.

Lemma remove_surrounding_unwraps_witness :
  remove_div (u "<div id=kashi_area>hana saku</div>") = u "hana saku" /\
  remove_p (u "<pre>hana saku</p>") = u "hana saku".
Proof.
  split.
  - apply (remove_surrounding_unwraps (Literal (u "div") eq_refl) 100 (u "iv")
             (u " id=kashi_area") (u "hana saku"));
      [reflexivity|discriminate|reflexivity..].
  - apply (remove_surrounding_unwraps (Literal (u "p") eq_refl) 112 []
             (u "re") (u "hana saku"));
      [reflexivity|discriminate|reflexivity..].
Defined.

(** X5: for a tag in which every character stands for itself in a pattern
    and which does not start with [/], an opening tag with a line break
    before its [>] is not removed: the text up to the line break is kept as
    it is. *)
Theorem remove_surrounding_broken_tag (tag : literal) (c0 : N)
    (tag' attrs rest : pystr) :
  literal_text tag = c0 :: tag' ->
  c0 <> slash ->
  occurs gt_sign attrs = false ->
  occurs lt_sign (literal_text tag ++ attrs) = false ->
  remove_surrounding tag (u "<" ++ literal_text tag ++ attrs ++ newline :: rest)
  = u "<" ++ literal_text tag ++ attrs ++ newline :: remove_surrounding tag rest.
Proof.
  intros Htag Hc0 Hgt Hlt.
  rewrite remove_surrounding_broken with (c0 := c0) (tag' := tag') (attrs := attrs)
    by done.
  assert (Hplain : occurs lt_sign ((literal_text tag ++ attrs) ++ [newline]) = false).
  { unfold occurs in *. by rewrite existsb_app, Hlt. }
  apply remove_surrounding_plain with (name := tag) (c0 := c0) (tag' := tag')
    (rest := rest) in Hplain; [|done..].
  rewrite <- !app_assoc in Hplain. cbn [app] in Hplain. by rewrite Hplain.
Qed.

Lemma remove_surrounding_broken_tag_witness :
  remove_div (u "<div id=lyrics" ++ newline :: u "class=k>hana</div>")
  = u "<div id=lyrics" ++ newline :: u "class=k>hana".
Proof.
  apply (remove_surrounding_broken_tag (Literal (u "div") eq_refl) 100 (u "iv")
           (u " id=lyrics") (u "class=k>hana</div>"));
    [reflexivity|discriminate|reflexivity..].
Defined.

(** ** Transport failures *)

Section Transport.
Context `{Runtime}.

Lemma get_lyrics_search_fails (self : Self) (w : World) (code : N) :
  http (requests w) (search_url (cls self) self) = Failure code ->
  get_lyrics self w
  = (Raise (ExternalError code), after_request w [search_url (cls self) self]).
Proof. intros Hfail. by rewrite get_lyrics_run, get_lyrics_url_run, Hfail. Qed.

Lemma get_lyrics_page_fails (self : Self) (w : World) (url : pystr) (code : N) :
  fst (get_lyrics_url self w) = Return url ->
  http (requests w ++ [search_url (cls self) self]) url = Failure code ->
  get_lyrics self w
  = (Raise (ExternalError code),
     after_request w [search_url (cls self) self; url]).
Proof. intros Hurl Hfail. by rewrite get_lyrics_run, Hurl, Hfail. Qed.

Lemma fuzzy_titles_head (title : pystr) :
  exists variants, MutipleLyricsSearcher.fuzzy_titles title = title :: variants.
Proof. rewrite fuzzy_titles_spec. eauto. Qed.

End Transport.

(** X6: a transport failure leaves [get_lyrics] as the exception [requests]
    raised.  When the search page cannot be fetched, that one request is the
    only one made; when the lyrics page cannot be fetched, exactly the two
    requests were made.  Nothing is retried. *)
Theorem get_lyrics_transport_failure `{Runtime} (self : Self) (w : World) (code : N) :
  (http (requests w) (search_url (cls self) self) = Failure code ->
   get_lyrics self w
   = (Raise (ExternalError code), after_request w [search_url (cls self) self])) /\
  (forall url,
     fst (get_lyrics_url self w) = Return url ->
     http (requests w ++ [search_url (cls self) self]) url = Failure code ->
     get_lyrics self w
     = (Raise (ExternalError code),
        after_request w [search_url (cls self) self; url])).
Proof.
  split; [apply get_lyrics_search_fails|]. intros url. apply get_lyrics_page_fails.
Qed.

Lemma get_lyrics_transport_failure_witness :
  @get_lyrics Faults.offline (Demo.fan PetitLyricsSearcher false) Demo.world
  = (Raise (ExternalError 503),
     mkWorld [u "https://petitlyrics.com/search_lyrics?title=tsubomi"] ∅ []) /\
  @get_lyrics Faults.flaky (Demo.fan PetitLyricsSearcher false) Demo.world
  = (Raise (ExternalError 503),
     mkWorld [u "https://petitlyrics.com/search_lyrics?title=tsubomi";
              u "https://petitlyrics.com/lyrics/2"] ∅ []).
Proof.
  split.
  - exact (proj1 (@get_lyrics_transport_failure Faults.offline
                    (Demo.fan PetitLyricsSearcher false) Demo.world 503) eq_refl).
  - exact (proj2 (@get_lyrics_transport_failure Faults.flaky
                    (Demo.fan PetitLyricsSearcher false) Demo.world 503)
             (u "https://petitlyrics.com/lyrics/2") eq_refl eq_refl).
Defined.

(** X7: the batch has no guard against transport failures.  When the first
    request for a line, the search on the first site, fails in transport,
    [main] ends with that exception after this one request: nothing is
    printed, no file is written, no other site is tried and the lines after
    it are not read. *)
Theorem main_transport_failure `{Runtime} (line : pystr) (lines : list pystr)
    (title artist : pystr) (w : World) (code : N) :
  parse_line line = Return (title, artist) ->
  http (requests w)
    (search_url JLyricSearcher (init JLyricSearcher artist title false))
  = Failure code ->
  main (line :: lines) w
  = (Raise (ExternalError code),
     after_request w
       [search_url JLyricSearcher (init JLyricSearcher artist title false)]).
Proof.
  intros Hline Hfail.
  pose proof (get_lyrics_search_fails (init JLyricSearcher artist title false)
                w code Hfail) as Hget.
  destruct (fuzzy_titles_head title) as [variants Hvariants].
  assert (Hsearch :
            MutipleLyricsSearcher.fuzzy_title_search batch_searcher artist title w
            = (Raise (ExternalError code),
               after_request w
                 [search_url JLyricSearcher
                    (init JLyricSearcher artist title false)])).
  { unfold MutipleLyricsSearcher.fuzzy_title_search. rewrite Hvariants.
    rewrite try_each_stops.
    - unfold MutipleLyricsSearcher.search, batch_searcher.
      cbn [MutipleLyricsSearcher.searcher_classes MutipleLyricsSearcher.strict].
      rewrite try_each_stops; unfold as_searcher; by rewrite Hget.
    - unfold MutipleLyricsSearcher.search, batch_searcher.
      cbn [MutipleLyricsSearcher.searcher_classes MutipleLyricsSearcher.strict].
      rewrite try_each_stops; unfold as_searcher; by rewrite Hget. }
  cbn [main]. unfold bind at 1.
  unfold process_line, bind, lift. rewrite Hline. by rewrite Hsearch.
Qed.

Lemma main_transport_failure_witness :
  @main Faults.offline [Demo.found_line; Demo.lost_line] Demo.world
  = (Raise (ExternalError 503),
     mkWorld
       [u "http://search.j-lyric.net/index.php?kt=tsubomi&ct=2&ka=flumpool/yamamura&ca=2"]
       ∅ []).
Proof.
  exact (@main_transport_failure Faults.offline Demo.found_line [Demo.lost_line]
           (u "tsubomi") (u "flumpool/yamamura") Demo.world 503 eq_refl eq_refl).
Defined.

(** ** Input lines *)

Section Lines.

Lemma tabs_cons (c : N) (s : pystr) :
  tabs (c :: s) = if (c =? tab)%N then S (tabs s) else tabs s.
Proof.
  unfold tabs, pystr. rewrite filter_cons.
  destruct (N.eqb_spec c tab); case_decide; done.
Qed.

Lemma tabs_app (s1 s2 : pystr) : tabs (s1 ++ s2) = tabs s1 + tabs s2.
Proof. unfold tabs, pystr. by rewrite filter_app, length_app. Qed.

Lemma split_not_nil (sep : N) (s : pystr) : split sep s <> [].
Proof.
  destruct s as [|c s]; [done|]. simpl.
  destruct (c =? sep)%N; [done|]. by destruct (split sep s).
Qed.

Lemma split_cons_other (sep c : N) (s : pystr) :
  (c =? sep)%N = false ->
  exists field fields,
    split sep s = field :: fields /\ split sep (c :: s) = (c :: field) :: fields.
Proof.
  intros Hc. simpl. rewrite Hc.
  destruct (split sep s) as [|field fields] eqn:Hs; [by destruct (split_not_nil sep s)|].
  eauto.
Qed.

(** One more field than there are tabs. *)
Lemma split_length (s : pystr) : length (split tab s) = S (tabs s).
Proof.
  induction s as [|c s IH]; [done|]. rewrite tabs_cons.
  destruct (c =? tab)%N eqn:Hc.
  - simpl. by rewrite Hc, <- IH.
  - destruct (split_cons_other tab c s Hc) as (field & fields & Hs & ->).
    rewrite Hs in IH. exact IH.
Qed.

Lemma split_no_tab (s : pystr) : tabs s = 0 -> split tab s = [s].
Proof.
  induction s as [|c s IH]; [done|]. rewrite tabs_cons.
  destruct (c =? tab)%N eqn:Hc; [done|]. intros Hs.
  simpl. by rewrite Hc, (IH Hs).
Qed.

Lemma split_first_tab (field rest : pystr) :
  tabs field = 0 -> split tab (field ++ tab :: rest) = field :: split tab rest.
Proof.
  induction field as [|c field IH]; intros Hfield.
  - done.
  - rewrite tabs_cons in Hfield. destruct (c =? tab)%N eqn:Hc; [done|].
    simpl. by rewrite Hc, (IH Hfield).
Qed.

Lemma split_one (s field : pystr) :
  split tab s = [field] -> s = field /\ tabs s = 0.
Proof.
  intros Hs. pose proof (split_length s) as Hlen. rewrite Hs in Hlen.
  assert (Htabs : tabs s = 0) by (simpl in Hlen; lia).
  rewrite (split_no_tab s Htabs) in Hs. by injection Hs.
Qed.

Lemma split_two (s title artist : pystr) :
  split tab s = [title; artist] ->
  s = title ++ tab :: artist /\ tabs title = 0 /\ tabs artist = 0.
Proof.
  revert title. induction s as [|c s IH]; intros title; [done|].
  destruct (c =? tab)%N eqn:Hc.
  - simpl. rewrite Hc. intros [= <- Hs].
    apply N.eqb_eq in Hc as ->. by destruct (split_one _ _ Hs) as [-> ?].
  - destruct (split_cons_other tab c s Hc) as (field & fields & Hs & ->).
    intros [= <- ->]. destruct (IH _ Hs) as (-> & Hfield & Hartist).
    rewrite tabs_cons, Hc. done.
Qed.

(** Trailing newlines go, whatever their number, and nothing else does. *)
Lemma rstrip_newline_newlines (k : nat) : rstrip_newline (replicate k newline) = [].
Proof. induction k as [|k IH]; [done|]. simpl. by rewrite IH. Qed.

Lemma rstrip_newline_app (s : pystr) (k : nat) :
  last s <> Some newline ->
  rstrip_newline (s ++ replicate k newline) = s.
Proof.
  induction s as [|c s IH]; intros Hlast.
  - apply rstrip_newline_newlines.
  - cbn [app rstrip_newline]. destruct s as [|c' s].
    + cbn [app]. rewrite rstrip_newline_newlines.
      destruct (N.eqb_spec c newline) as [->|]; done.
    + rewrite IH; [done|]. exact Hlast.
Qed.

Lemma parse_line_spec (line : pystr) :
  match parse_line line with
  | Return (title, artist) =>
      rstrip_newline line = title ++ tab :: artist /\
      tabs title = 0 /\ tabs artist = 0
  | Raise e => e = ValueError /\ tabs (rstrip_newline line) <> 1
  end.
Proof.
  unfold parse_line. pose proof (split_length (rstrip_newline line)) as Hlen.
  destruct (split tab (rstrip_newline line)) as [|title [|artist [|more fields]]] eqn:Hs.
  - simpl in Hlen. lia.
  - simpl in Hlen. split; [done|lia].
  - by apply split_two.
  - simpl in Hlen. split; [done|lia].
Qed.

End Lines.

(** X8: [parse_line] accepts a line exactly when, once its trailing newlines
    are stripped, it holds one tab: the title is what stands before the tab
    and the artist what stands after it.  Every other line, with no tab or
    with more than one, makes the unpacking raise [ValueError]. *)
Theorem parse_line_one_tab (line : pystr) :
  match parse_line line with
  | Return (title, artist) =>
      tabs (rstrip_newline line) = 1 /\
      rstrip_newline line = title ++ tab :: artist /\
      tabs title = 0 /\ tabs artist = 0
  | Raise e => e = ValueError /\ tabs (rstrip_newline line) <> 1
  end.
Proof.
  pose proof (parse_line_spec line) as Hspec.
  destruct (parse_line line) as [[title artist]|e]; [|done].
  destruct Hspec as (Hline & Htitle & Hartist). repeat split; try done.
  rewrite Hline, tabs_app, tabs_cons, N.eqb_refl. lia.
Qed.

(** X9: a line written as title, tab, artist and any number of newlines is
    read back as that pair, provided the title and the artist hold no tab and
    the artist does not end in a newline. *)
Theorem parse_line_round_trip (title artist : pystr) (k : nat) :
  tabs title = 0 -> tabs artist = 0 -> last artist <> Some newline ->
  parse_line (title ++ tab :: artist ++ replicate k newline)
  = Return (title, artist).
Proof.
  intros Htitle Hartist Hlast. unfold parse_line.
  replace (title ++ tab :: artist ++ replicate k newline)
    with ((title ++ tab :: artist) ++ replicate k newline)
    by (by rewrite <- app_assoc).
  rewrite rstrip_newline_app.
  - by rewrite (split_first_tab _ _ Htitle), (split_no_tab _ Hartist).
  - rewrite last_app, last_cons.
    destruct (last artist) as [c|]; [exact Hlast|]. intros [=].
Qed.

Lemma parse_line_round_trip_witness :
  parse_line (u "tsubomi" ++ tab :: u "flumpool" ++ replicate 2 newline)
  = Return (u "tsubomi", u "flumpool").
Proof.
  apply (parse_line_round_trip (u "tsubomi") (u "flumpool") 2);
    [reflexivity|reflexivity|discriminate].
Defined.

(** X10: a line that does not hold exactly one tab stops the batch with
    [ValueError] before any request is made, and the lines after it are not
    read. *)
Theorem main_malformed_line `{Runtime} (line : pystr) (lines : list pystr)
    (w : World) :
  tabs (rstrip_newline line) <> 1 ->
  main (line :: lines) w = (Raise ValueError, w).
Proof.
  intros Htabs. pose proof (parse_line_one_tab line) as Hspec.
  cbn [main]. unfold bind at 1. unfold process_line, bind, lift.
  destruct (parse_line line) as [[title artist]|e].
  - by destruct Hspec as [? _].
  - by destruct Hspec as [-> _].
Qed.

Lemma main_malformed_line_witness :
  @main Demo.runtime [u "tsubomi flumpool"; Demo.found_line] Demo.world
  = (Raise ValueError, Demo.world).
Proof.
  apply (@main_malformed_line Demo.runtime). vm_compute. discriminate.
Defined.

(** ** The lyrics files *)

Lemma without_slashes_spec (name : pystr) :
  occurs slash (without_slashes name) = false /\
  length (without_slashes name) = length name.
Proof.
  split; [|apply length_map]. unfold without_slashes, occurs.
  induction name as [|c name IH]; [done|].
  cbn [map existsb]. rewrite IH, orb_false_r.
  change 47%N with slash. destruct (N.eqb_spec c slash) as [->|Hne]; [done|].
  apply N.eqb_neq. congruence.
Qed.

(** X11: the file of a pair lies directly in [lyrics/]: what follows the
    directory holds no [/], and is as long as the artist, a dash and the
    title. *)
Theorem lyrics_path_single_segment (artist title : pystr) :
  exists name,
    lyrics_path artist title = u "lyrics/" ++ name /\
    occurs slash name = false /\
    length name = length artist + 1 + length title.
Proof.
  exists (without_slashes (artist ++ u "-" ++ title)).
  split; [apply lyrics_path_spec|].
  destruct (without_slashes_spec (artist ++ u "-" ++ title)) as [Hslash Hlen].
  split; [exact Hslash|]. rewrite Hlen, !length_app. simpl. lia.
Qed.

(** X12: the file name does not tell pairs apart.  An artist with a [/] and
    the same artist with a [_] in its place share a file, and so do two pairs
    that split the same text at different dashes. *)
Theorem lyrics_path_collisions (a b c : pystr) :
  lyrics_path (a ++ u "/" ++ b) c = lyrics_path (a ++ u "_" ++ b) c /\
  lyrics_path (a ++ u "-" ++ b) c = lyrics_path a (b ++ u "-" ++ c).
Proof.
  rewrite !lyrics_path_spec. unfold without_slashes. split.
  - by rewrite !map_app.
  - by rewrite <- !app_assoc.
Qed.

(** ** What the batch does to the world *)

Section BatchEffects.
Context `{Runtime}.

Lemma after_request_nil (w : World) : after_request w [] = w.
Proof. destruct w. unfold after_request. simpl. by rewrite app_nil_r. Qed.

Lemma after_request_app (w : World) (l1 l2 : list pystr) :
  after_request (after_request w l1) l2 = after_request w (l1 ++ l2).
Proof. unfold after_request. simpl. by rewrite app_assoc. Qed.

Lemma requests_at_most_weaken {A} (n n' : nat) (m : M World A) :
  n <= n' -> requests_at_most n m -> requests_at_most n' m.
Proof.
  intros Hle Hm w. destruct (Hm w) as (new & Hw & Hlen).
  exists new. split; [done|lia].
Qed.

Lemma requests_at_most_get_lyrics (self : Self) :
  requests_at_most 2 (get_lyrics self).
Proof.
  intros w. rewrite get_lyrics_run.
  destruct (fst (get_lyrics_url self w)); eexists; (split; [reflexivity|simpl; lia]).
Qed.

Lemma requests_at_most_try_each {X A} (n : nat) (f : X -> M World A) (xs : list X) :
  Forall (fun x => requests_at_most n (f x)) xs ->
  requests_at_most (n * length xs) (try_each f xs).
Proof.
  induction 1 as [|x xs Hx _ IH]; intros w.
  - exists []. rewrite after_request_nil. split; [done|simpl; lia].
  - destruct (Hx w) as (new1 & Hw1 & Hlen1). cbn [try_each length].
    destruct (f x w) as [r w1]. simpl in Hw1. subst w1.
    assert (Hstop : exists new, (r, after_request w new1).2 = after_request w new
                                /\ length new <= n * S (length xs)).
    { exists new1. split; [done|lia]. }
    destruct r as [v|e]; [exact Hstop|]. destruct e; try exact Hstop.
    destruct (IH (after_request w new1)) as (new2 & Hw2 & Hlen2).
    exists (new1 ++ new2). rewrite Hw2, after_request_app, length_app.
    split; [done|lia].
Qed.

Lemma requests_at_most_search (artist title : pystr) :
  requests_at_most 8 (MutipleLyricsSearcher.search batch_searcher artist title).
Proof.
  apply (requests_at_most_try_each 2 _
           (MutipleLyricsSearcher.searcher_classes batch_searcher)).
  repeat constructor; apply requests_at_most_get_lyrics.
Qed.

Lemma requests_at_most_fuzzy (artist title : pystr) :
  requests_at_most (8 * length (MutipleLyricsSearcher.fuzzy_titles title))
    (MutipleLyricsSearcher.fuzzy_title_search batch_searcher artist title).
Proof.
  apply requests_at_most_try_each, Forall_forall. intros variant _.
  apply requests_at_most_search.
Qed.

End BatchEffects.

Section BatchInvariants.
Context `{Runtime}.

Lemma fuzzy_titles_length (title : pystr) :
  1 <= length (MutipleLyricsSearcher.fuzzy_titles title) <= 3.
Proof.
  rewrite fuzzy_titles_spec.
  destruct (occurs fullwidth_question title || occurs fullwidth_exclamation title),
    (occurs halfwidth_question title || occurs halfwidth_exclamation title);
    simpl; lia.
Qed.

(** What one line does to the world: at most 24 requests, at most one printed
    line, exactly one on a normal end, and at most one file, the file of its
    pair. *)
Lemma process_line_effect (line : pystr) (w : World) :
  exists new reports,
    requests (snd (process_line line w)) = requests w ++ new /\
    length new <= 24 /\
    stdout (snd (process_line line w)) = stdout w ++ reports /\
    (files (snd (process_line line w)) = files w \/
     exists artist title text,
       files (snd (process_line line w))
       = <[lyrics_path artist title := text]> (files w)) /\
    match fst (process_line line w) with
    | Return _ => length reports = 1
    | Raise _ => length reports <= 1
    end.
Proof.
  rewrite process_line_run.
  destruct (parse_line line) as [[title artist]|e].
  - destruct (requests_at_most_fuzzy artist title w) as (new & Hw & Hlen).
    pose proof (fuzzy_titles_length title) as Hvariants.
    exists new.
    destruct (MutipleLyricsSearcher.fuzzy_title_search batch_searcher artist title w)
      as [[lyrics|e] w']; simpl in Hw; subst w'.
    + exists [u "Lyrics found: " ++ title ++ u "_" ++ artist ++ u ".txt"].
      destruct (file_write (lyrics_path artist title) lyrics);
        cbn [fst snd requests files stdout after_request length];
        (split; [done|]); (split; [lia|]); (split; [done|]);
        (split; [|lia]); eauto.
    + destruct e;
        try (exists []; cbn [fst snd requests files stdout after_request length];
             rewrite app_nil_r; (split; [done|]); (split; [lia|]); (split; [done|]);
             (split; [|lia]); by left).
      exists [u "Lyrics not found: " ++ title ++ u " - " ++ artist].
      cbn [fst snd requests files stdout after_request length].
      (split; [done|]); (split; [lia|]); (split; [done|]); (split; [|lia]); by left.
  - exists [], []. cbn [fst snd length]. rewrite !app_nil_r.
    (split; [done|]); (split; [lia|]); (split; [done|]); (split; [|lia]); by left.
Qed.

Lemma main_cons_run (line : pystr) (lines : list pystr) (w : World) :
  main (line :: lines) w =
  match fst (process_line line w) with
  | Return _ => main lines (snd (process_line line w))
  | Raise e => (Raise e, snd (process_line line w))
  end.
Proof.
  cbn [main]. unfold bind at 1. by destruct (process_line line w) as [[[]|e] w1].
Qed.

End BatchInvariants.

(** X13: a batch that ends normally has printed exactly one line for each
    input line, after what was printed before. *)
Theorem main_one_report_per_line `{Runtime} (lines : list pystr) (w w' : World) :
  main lines w = (Return tt, w') ->
  exists reports,
    stdout w' = stdout w ++ reports /\ length reports = length lines.
Proof.
  revert w. induction lines as [|line lines IH]; intros w.
  - intros [= <-]. exists []. by rewrite app_nil_r.
  - rewrite main_cons_run.
    destruct (process_line_effect line w) as (_ & printed & _ & _ & Hout & _ & Hone).
    destruct (fst (process_line line w)) as [[]|e]; [|done].
    intros Hrest. destruct (IH _ Hrest) as (reports & Hout' & Hlen).
    exists (printed ++ reports). rewrite Hout', Hout, <- app_assoc.
    split; [done|]. rewrite length_app, Hone, Hlen. done.
Qed.

Lemma main_one_report_per_line_witness :
  exists reports,
    stdout (snd (@main Demo.runtime [Demo.lost_line; Demo.found_line] Demo.world))
    = stdout Demo.world ++ reports /\
    length reports = 2.
Proof.
  apply (@main_one_report_per_line Demo.runtime [Demo.lost_line; Demo.found_line]).
  vm_compute. reflexivity.
Defined.

(** X14: however the batch ends, it has deleted no file and has left every
    path outside the file names of pairs, so every path not under [lyrics/],
    as it was; and what was printed before is still the start of the output. *)
Theorem main_touches_only_lyrics `{Runtime} (lines : list pystr) (w : World) :
  (forall path, is_Some (files w !! path) ->
                is_Some (files (snd (main lines w)) !! path)) /\
  (forall path, startswith (u "lyrics/") path = false ->
                files (snd (main lines w)) !! path = files w !! path) /\
  (exists reports, stdout (snd (main lines w)) = stdout w ++ reports).
Proof.
  revert w. induction lines as [|line lines IH]; intros w.
  - cbn [main ret snd]. repeat split; try done. exists []. by rewrite app_nil_r.
  - rewrite main_cons_run.
    destruct (process_line_effect line w) as (_ & printed & _ & _ & Hout & Hfiles & _).
    assert (Hstep : (forall path, is_Some (files w !! path) ->
                       is_Some (files (snd (process_line line w)) !! path)) /\
                    (forall path, startswith (u "lyrics/") path = false ->
                       files (snd (process_line line w)) !! path = files w !! path)).
    { destruct Hfiles as [->|(artist & title & text & ->)]; [done|]. split.
      - intros path Hpath.
        destruct (decide (lyrics_path artist title = path)) as [<-|Hne].
        + rewrite lookup_insert_eq. eauto.
        + by rewrite lookup_insert_ne.
      - intros path Hpath. apply lookup_insert_ne. intros <-.
        unfold lyrics_path in Hpath. by rewrite startswith_app in Hpath. }
    destruct Hstep as [Hkept1 Hother1].
    destruct (fst (process_line line w)) as [[]|e]; cbn [snd].
    + destruct (IH (snd (process_line line w))) as (Hkept & Hother & reports & Hout').
      split; [|split].
      * intros path Hpath. by apply Hkept, Hkept1.
      * intros path Hpath. by rewrite Hother, Hother1.
      * exists (printed ++ reports). by rewrite Hout', Hout, <- app_assoc.
    + split; [exact Hkept1|]. split; [exact Hother1|]. by exists printed.
Qed.

(** X15: a batch makes at most 24 requests for each input line: at most three
    title variants, four sites for each, two requests for each site. *)
Theorem main_request_bound `{Runtime} (lines : list pystr) (w : World) :
  exists new,
    requests (snd (main lines w)) = requests w ++ new /\
    length new <= 24 * length lines.
Proof.
  revert w. induction lines as [|line lines IH]; intros w.
  - exists []. cbn [main ret snd]. rewrite app_nil_r. split; [done|simpl; lia].
  - rewrite main_cons_run.
    destruct (process_line_effect line w) as (new1 & _ & Hreq1 & Hlen1 & _).
    destruct (fst (process_line line w)) as [[]|e]; cbn [snd].
    + destruct (IH (snd (process_line line w))) as (new2 & Hreq2 & Hlen2).
      exists (new1 ++ new2). rewrite Hreq2, Hreq1, <- app_assoc, length_app.
      split; [done|]. simpl. lia.
    + exists new1. split; [done|]. simpl. lia.
Qed.

Section NotFoundCost.
Context `{Runtime}.

Lemma get_lyrics_not_found_requests (self : Self) (w w' : World) :
  get_lyrics self w = (Raise LyricsNotFoundError, w') ->
  w' = after_request w [search_url (cls self) self].
Proof.
  rewrite get_lyrics_run. destruct (fst (get_lyrics_url self w)) as [url|e].
  - by destruct (http (requests w ++ [search_url (cls self) self]) url).
  - by intros [= _ <-].
Qed.

Lemma all_not_found_adapters (artist title : pystr) (strict : bool)
    (classes : list Subclass) (w w' : World) :
  all_not_found (fun c : MutipleLyricsSearcher.searcher World => c artist title strict)
    (map as_searcher classes) w w' ->
  w' = after_request w
         (map (fun c => search_url c (init c artist title strict)) classes).
Proof.
  revert w. induction classes as [|c classes IH]; intros w Hall.
  - inversion Hall; subst. by rewrite after_request_nil.
  - inversion Hall as [|? ? ? w1 ? Hc Hrest]; subst.
    apply get_lyrics_not_found_requests in Hc. subst w1.
    rewrite (IH _ Hrest), after_request_app. done.
Qed.

Lemma search_not_found_requests (artist title : pystr) (w w' : World) :
  MutipleLyricsSearcher.search batch_searcher artist title w
  = (Raise LyricsNotFoundError, w') ->
  w' = after_request w (batch_search_urls artist title).
Proof.
  intros Hrun. unfold MutipleLyricsSearcher.search in Hrun.
  pose proof (proj1 (try_each_not_found_iff _ _ _) (f_equal fst Hrun)) as [w'' Hall].
  rewrite (try_each_all_not_found _ _ _ _ Hall) in Hrun. injection Hrun as <-.
  exact (all_not_found_adapters artist title false
           [JLyricSearcher; UtanetSearcher; PetitLyricsSearcher; JLyricTitleSearcher]
           w w'' Hall).
Qed.

Lemma all_not_found_variants (artist : pystr) (variants : list pystr) (w w' : World) :
  all_not_found (MutipleLyricsSearcher.search batch_searcher artist) variants w w' ->
  w' = after_request w (concat (map (batch_search_urls artist) variants)).
Proof.
  revert w. induction variants as [|variant variants IH]; intros w Hall.
  - inversion Hall; subst. by rewrite after_request_nil.
  - inversion Hall as [|? ? ? w1 ? Hv Hrest]; subst.
    apply search_not_found_requests in Hv. subst w1.
    rewrite (IH _ Hrest), after_request_app. done.
Qed.

Lemma fuzzy_not_found_requests (artist title : pystr) (w : World) :
  fst (MutipleLyricsSearcher.fuzzy_title_search batch_searcher artist title w)
  = Raise LyricsNotFoundError ->
  MutipleLyricsSearcher.fuzzy_title_search batch_searcher artist title w
  = (Raise LyricsNotFoundError,
     after_request w
       (concat (map (batch_search_urls artist)
                  (MutipleLyricsSearcher.fuzzy_titles title)))).
Proof.
  intros Hrun. unfold MutipleLyricsSearcher.fuzzy_title_search in *.
  apply try_each_not_found_iff in Hrun as [w' Hall].
  rewrite (try_each_all_not_found _ _ _ _ Hall).
  by rewrite (all_not_found_variants _ _ _ _ Hall).
Qed.

End NotFoundCost.

(** X16: a pair that no site has costs exactly four requests for each title
    variant, the four search pages in the order of the batch, and no lyrics
    page is requested; the line is reported as not found and no file is
    written. *)
Theorem process_line_not_found_cost `{Runtime} (line title artist : pystr) (w : World) :
  parse_line line = Return (title, artist) ->
  fst (MutipleLyricsSearcher.fuzzy_title_search batch_searcher artist title w)
  = Raise LyricsNotFoundError ->
  let urls := concat (map (batch_search_urls artist)
                        (MutipleLyricsSearcher.fuzzy_titles title)) in
  process_line line w
  = (Return tt,
     mkWorld (requests w ++ urls) (files w)
       (stdout w ++ [u "Lyrics not found: " ++ title ++ u " - " ++ artist])) /\
  length urls = 4 * length (MutipleLyricsSearcher.fuzzy_titles title).
Proof.
  intros Hline Hrun urls. split.
  - rewrite process_line_run, Hline, (fuzzy_not_found_requests _ _ _ Hrun). done.
  - unfold urls. induction (MutipleLyricsSearcher.fuzzy_titles title) as [|v vs IH];
      [done|].
    cbn [map concat length]. rewrite length_app, IH. simpl. lia.
Qed.

Lemma process_line_not_found_cost_witness :
  @process_line Demo.runtime (u "Oh!" ++ tab :: u "y") Demo.world
  = (Return tt,
     mkWorld
       [u "http://search.j-lyric.net/index.php?kt=Oh!&ct=2&ka=y&ca=2";
        u "https://www.uta-net.com/search/?Aselect=2&Keyword=Oh!&Bselect=4&x=0&y=0";
        u "https://petitlyrics.com/search_lyrics?title=Oh!";
        u "http://search.j-lyric.net/index.php?kt=Oh!&ct=2&ka=&ca=2";
        u "http://search.j-lyric.net/index.php?kt=Oh" ++ fullwidth_exclamation
          :: u "&ct=2&ka=y&ca=2";
        u "https://www.uta-net.com/search/?Aselect=2&Keyword=Oh" ++ fullwidth_exclamation
          :: u "&Bselect=4&x=0&y=0";
        u "https://petitlyrics.com/search_lyrics?title=Oh" ++ [fullwidth_exclamation];
        u "http://search.j-lyric.net/index.php?kt=Oh" ++ fullwidth_exclamation
          :: u "&ct=2&ka=&ca=2"]
       ∅ [u "Lyrics not found: Oh! - y"]).
Proof.
  exact (proj1 (@process_line_not_found_cost Demo.runtime (u "Oh!" ++ tab :: u "y")
                  (u "Oh!") (u "y") Demo.world eq_refl eq_refl)).
Defined.

(** ** Running the batch again *)

Section Idempotence.
Context `{Runtime}.
Hypothesis Hind : history_independent.

Lemma oblivious_get_lyrics (self : Self) : oblivious (get_lyrics self).
Proof.
  exists (fst (get_lyrics self (mkWorld [] ∅ []))),
         (requests (snd (get_lyrics self (mkWorld [] ∅ [])))).
  intros w. rewrite !get_lyrics_run, !get_lyrics_url_run. cbn [fst requests].
  rewrite (Hind (requests w) [] (search_url (cls self) self)).
  destruct (http [] (search_url (cls self) self)) as [body|code]; [|done].
  destruct (find_lyrics_link self _) as [url|e]; [|done].
  rewrite (Hind (requests w ++ [search_url (cls self) self])
             ([] ++ [search_url (cls self) self]) url).
  done.
Qed.

Lemma oblivious_try_each {X A} (f : X -> M World A) (xs : list X) :
  Forall (fun x => oblivious (f x)) xs -> oblivious (try_each f xs).
Proof.
  induction 1 as [|x xs Hx _ IH].
  - exists (Raise LyricsNotFoundError), []. intros w. by rewrite after_request_nil.
  - destruct Hx as (r & new1 & Hx). destruct IH as (r' & new2 & IH).
    assert (Hstop : forall r0 : result A,
               (forall w, try_each f (x :: xs) w = (r0, after_request w new1)) ->
               oblivious (try_each f (x :: xs))) by (intros r0 Hr0; by exists r0, new1).
    destruct r as [v|e].
    + apply (Hstop (Return v)). intros w. cbn [try_each]. by rewrite Hx.
    + destruct e;
        try (eapply Hstop; intros w; cbn [try_each]; by rewrite Hx).
      exists r', (new1 ++ new2). intros w. cbn [try_each].
      by rewrite Hx, IH, after_request_app.
Qed.

Lemma oblivious_fuzzy_title_search (artist title : pystr) :
  oblivious (MutipleLyricsSearcher.fuzzy_title_search batch_searcher artist title).
Proof.
  apply oblivious_try_each, Forall_forall. intros variant _.
  apply oblivious_try_each. repeat constructor; apply oblivious_get_lyrics.
Qed.

Lemma fixed_effect_process_line (line : pystr) : fixed_effect (process_line line).
Proof.
  assert (Hquiet : forall (r : result unit) new,
             (forall w, process_line line w
                        = (r, mkWorld (requests w ++ new) (files w) (stdout w))) ->
             fixed_effect (process_line line)).
  { intros r new Hrun. exists r, new, ∅, []. intros w.
    by rewrite Hrun, (left_id_L ∅ (∪)), app_nil_r. }
  destruct (parse_line line) as [[title artist]|e] eqn:Hline.
  - destruct (oblivious_fuzzy_title_search artist title) as (r & new & Hrun).
    destruct r as [lyrics|e].
    + destruct (file_write (lyrics_path artist title) lyrics)
        as [|errno|e partial] eqn:Hstored.
      * exists (Return tt), new, {[lyrics_path artist title := lyrics]},
          [u "Lyrics found: " ++ title ++ u "_" ++ artist ++ u ".txt"].
        intros w. rewrite process_line_run, Hline, Hrun, Hstored.
        by rewrite insert_union_singleton_l.
      * exists (Raise (OSError errno)), new, ∅,
          [u "Lyrics found: " ++ title ++ u "_" ++ artist ++ u ".txt"].
        intros w. rewrite process_line_run, Hline, Hrun, Hstored.
        by rewrite (left_id_L ∅ (∪)).
      * exists (Raise e), new, {[lyrics_path artist title := partial]},
          [u "Lyrics found: " ++ title ++ u "_" ++ artist ++ u ".txt"].
        intros w. rewrite process_line_run, Hline, Hrun, Hstored.
        by rewrite insert_union_singleton_l.
    + destruct e;
        try (eapply (Hquiet _ new); intros w;
             by rewrite process_line_run, Hline, Hrun).
      exists (Return tt), new, ∅,
        [u "Lyrics not found: " ++ title ++ u " - " ++ artist].
      intros w. rewrite process_line_run, Hline, Hrun.
      by rewrite (left_id_L ∅ (∪)).
  - apply (Hquiet (Raise e) []). intros w.
    rewrite process_line_run, Hline, app_nil_r. by destruct w.
Qed.

Lemma fixed_effect_main (lines : list pystr) : fixed_effect (main lines).
Proof.
  induction lines as [|line lines IH].
  - exists (Return tt), [], ∅, []. intros w. cbn [main ret].
    rewrite (left_id_L ∅ (∪)), !app_nil_r. by destruct w.
  - destruct (fixed_effect_process_line line) as (r1 & new1 & delta1 & reports1 & H1).
    destruct IH as (r2 & new2 & delta2 & reports2 & H2).
    destruct r1 as [[]|e].
    + exists r2, (new1 ++ new2), (delta2 ∪ delta1), (reports1 ++ reports2).
      intros w. rewrite main_cons_run, H1. cbn [fst snd]. rewrite H2.
      cbn [requests files stdout]. by rewrite !app_assoc, (assoc_L (∪)).
    + exists (Raise e), new1, delta1, reports1.
      intros w. by rewrite main_cons_run, H1.
Qed.

End Idempotence.

(** X17: when the network answers a URL the same way whatever was requested
    before, running the batch a second time on the same lines ends the same
    way, prints the same reports again and leaves the files as the first run
    left them: each lyrics file is overwritten with the same text. *)
Theorem main_idempotent `{Runtime} (lines : list pystr) (w : World) :
  history_independent ->
  let first := main lines w in
  let second := main lines (snd first) in
  fst second = fst first /\
  files (snd second) = files (snd first) /\
  exists reports,
    stdout (snd first) = stdout w ++ reports /\
    stdout (snd second) = stdout (snd first) ++ reports.
Proof.
  intros Hind first second.
  destruct (fixed_effect_main Hind lines) as (r & new & delta & reports & Hrun).
  unfold second, first. rewrite !Hrun. cbn [fst snd files stdout].
  split; [done|]. split; [|by exists reports].
  by rewrite (assoc_L (∪)), (idemp_L (∪)).
Qed.

Lemma main_idempotent_witness :
  let first := @main Demo.runtime [Demo.found_line; Demo.lost_line] Demo.world in
  let second := @main Demo.runtime [Demo.found_line; Demo.lost_line] (snd first) in
  fst second = fst first /\ files (snd second) = files (snd first).
Proof.
  assert (Hind : @history_independent Demo.runtime) by (intros log log' url; reflexivity).
  destruct (@main_idempotent Demo.runtime [Demo.found_line; Demo.lost_line]
              Demo.world Hind) as (Hr & Hfiles & _).
  split; assumption.
Defined.

(** ** Title variants *)

Section Variants.

Lemma occurs_map_none (f : N -> N) (c : N) (s : pystr) :
  (forall x, f x <> c) -> occurs c (map f s) = false.
Proof.
  intros Hf. unfold occurs. induction s as [|x s IH]; [done|].
  cbn [map existsb]. rewrite IH, orb_false_r. apply N.eqb_neq. by intros Heq; apply (Hf x).
Qed.

Lemma occurs_map_some (f : N -> N) (c d : N) (s : pystr) :
  f c = d -> occurs c s = true -> occurs d (map f s) = true.
Proof.
  intros Hf. unfold occurs. induction s as [|x s IH]; [done|].
  cbn [map existsb]. intros Hs. apply orb_prop in Hs as [Hx|Hs].
  - apply N.eqb_eq in Hx as <-. by rewrite Hf, N.eqb_refl.
  - by rewrite (IH Hs), orb_true_r.
Qed.

Lemma to_halfwidth_marks (title : pystr) :
  occurs fullwidth_question (to_halfwidth title) = false /\
  occurs fullwidth_exclamation (to_halfwidth title) = false.
Proof.
  split; apply occurs_map_none; intros x;
    destruct (N.eqb_spec x fullwidth_question);
    destruct (N.eqb_spec x fullwidth_exclamation); done.
Qed.

Lemma to_fullwidth_marks (title : pystr) :
  occurs halfwidth_question (to_fullwidth title) = false /\
  occurs halfwidth_exclamation (to_fullwidth title) = false.
Proof.
  split; apply occurs_map_none; intros x;
    destruct (N.eqb_spec x halfwidth_question);
    destruct (N.eqb_spec x halfwidth_exclamation); done.
Qed.

Lemma to_halfwidth_changes (title : pystr) :
  occurs fullwidth_question title || occurs fullwidth_exclamation title = true ->
  to_halfwidth title <> title /\
  occurs halfwidth_question (to_halfwidth title)
  || occurs halfwidth_exclamation (to_halfwidth title) = true.
Proof.
  intros Hmarks. destruct (to_halfwidth_marks title) as [Hq He]. split.
  - intros Heq. rewrite Heq in Hq, He. by rewrite Hq, He in Hmarks.
  - unfold to_halfwidth. apply orb_prop in Hmarks as [Hmark|Hmark].
    + by rewrite (occurs_map_some _ fullwidth_question halfwidth_question title).
    + rewrite (occurs_map_some _ fullwidth_exclamation halfwidth_exclamation title);
        [apply orb_true_r|done..].
Qed.

Lemma to_fullwidth_changes (title : pystr) :
  occurs halfwidth_question title || occurs halfwidth_exclamation title = true ->
  to_fullwidth title <> title.
Proof.
  intros Hmarks. destruct (to_fullwidth_marks title) as [Hq He].
  intros Heq. rewrite Heq in Hq, He. by rewrite Hq, He in Hmarks.
Qed.

End Variants.

(** X18: the title variants of [fuzzy_title_search] are pairwise different, so
    no title is searched twice; there are between one and three of them, the
    first is the title itself, and each has as many characters as the title. *)
Theorem fuzzy_titles_distinct (title : pystr) :
  NoDup (MutipleLyricsSearcher.fuzzy_titles title) /\
  head (MutipleLyricsSearcher.fuzzy_titles title) = Some title /\
  1 <= length (MutipleLyricsSearcher.fuzzy_titles title) <= 3 /\
  Forall (fun variant => length variant = length title)
    (MutipleLyricsSearcher.fuzzy_titles title).
Proof.
  rewrite fuzzy_titles_spec.
  pose proof (to_halfwidth_changes title) as Hhalf.
  pose proof (to_fullwidth_changes title) as Hfull.
  pose proof (to_fullwidth_marks title) as [Hq He].
  assert (Hlen1 : length (to_halfwidth title) = length title) by apply length_map.
  assert (Hlen2 : length (to_fullwidth title) = length title) by apply length_map.
  destruct (occurs fullwidth_question title || occurs fullwidth_exclamation title),
    (occurs halfwidth_question title || occurs halfwidth_exclamation title);
    cbn [app]; (split; [|split; [done|split; [simpl; lia|by repeat constructor]]]).
  - destruct (Hhalf eq_refl) as [Hne Hmarks]. specialize (Hfull eq_refl).
    repeat constructor; rewrite ?elem_of_cons, ?elem_of_nil; try tauto.
    + intros [Heq|[Heq|[]]]; [exact (Hne (eq_sym Heq))|exact (Hfull (eq_sym Heq))].
    + intros [Heq|[]]. rewrite Heq in Hmarks. by rewrite Hq, He in Hmarks.
  - destruct (Hhalf eq_refl) as [Hne _].
    repeat constructor; rewrite ?elem_of_cons, ?elem_of_nil; try tauto.
    intros [Heq|[]]. exact (Hne (eq_sym Heq)).
  - specialize (Hfull eq_refl).
    repeat constructor; rewrite ?elem_of_cons, ?elem_of_nil; try tauto.
    intros [Heq|[]]. exact (Hfull (eq_sym Heq)).
  - repeat constructor. apply not_elem_of_nil.
Qed.

(** ** What [find_lyrics_link] returns *)

Section Soundness.
Context `{Runtime}.

Lemma first_char_matches_sound (a b : pystr) (x : bool) :
  first_char_matches a b = Return x -> first_char_equal a b = x.
Proof. destruct a, b; try done. simpl. by intros [= <-]. Qed.

Lemma examine_without_url (self : Self) (n : nat) (candidate : Tag) (a : pystr) :
  candidate_artist self candidate = Some a ->
  candidate_url self candidate = None ->
  exists e, examine self n candidate = Raise e.
Proof.
  unfold candidate_artist, candidate_url, examine.
  destruct (select_one candidate (search_result_artist_css_selector _)); [|done].
  destruct (select_one candidate (search_result_lyrics_link_css_selector _))
    as [link_tag|]; [|eauto].
  simpl. destruct (tag_get link_tag (u "href")); [done|eauto].
Qed.

(** A URL that the loop body returns is the URL of the candidate, and the
    candidate passed one of the three tests. *)
Lemma examine_sound (self : Self) (n : nat) (candidate : Tag) (url : pystr) :
  examine self n candidate = Return (Some url) ->
  exists a,
    candidate_artist self candidate = Some a /\
    candidate_url self candidate = Some url /\
    (a = artist self \/
     first_char_equal a (artist self) = true /\ (strict self = false \/ n = 1)).
Proof.
  intros Hex.
  destruct (candidate_artist self candidate) as [a|] eqn:Ha;
    [|by rewrite examine_no_artist in Hex].
  destruct (candidate_url self candidate) as [url0|] eqn:Hurl;
    [|destruct (examine_without_url self n candidate a Ha Hurl) as [e He];
      by rewrite He in Hex].
  rewrite (examine_tests _ _ _ _ _ Ha Hurl) in Hex. exists a. split; [done|].
  destruct (first_char_matches a (artist self)) as [matches|e] eqn:Hfirst.
  - apply first_char_matches_sound in Hfirst. rewrite Hfirst.
    destruct (Nat.eqb_spec n 1), matches, (bool_decide_reflect (a = artist self)),
      (strict self); simpl in Hex; simplify_eq; auto.
  - destruct (Nat.eqb_spec n 1), (bool_decide_reflect (a = artist self)),
      (strict self); simpl in Hex; simplify_eq; auto.
Qed.

Lemma find_lyrics_link_loop_sound (self : Self) (n : nat) (candidates : list Tag)
    (url : pystr) :
  find_lyrics_link_loop self n candidates = Return url ->
  exists candidate, candidate ∈ candidates /\ examine self n candidate = Return (Some url).
Proof.
  induction candidates as [|c cs IH]; [done|]. simpl.
  destruct (examine self n c) as [[url0|]|e] eqn:Hc; [| |done].
  - intros [= ->]. exists c. split; [apply list_elem_of_here|done].
  - intros Hrest. destruct (IH Hrest) as (candidate & Hin & Hex).
    exists candidate. split; [by apply list_elem_of_further|done].
Qed.

End Soundness.

(** X19: whatever the candidates are, a URL that [find_lyrics_link] returns is
    the base URL followed by the [href] of one of the candidates, and the artist
    of that candidate equals the query artist or starts, up to case, with the
    same character; in strict mode the second case arises only when the
    candidate is the only one. *)
Theorem find_lyrics_link_sound `{Runtime} (self : Self) (candidates : list Tag)
    (url : pystr) :
  find_lyrics_link self candidates = Return url ->
  exists candidate suggested_artist,
    candidate ∈ candidates /\
    candidate_artist self candidate = Some suggested_artist /\
    candidate_url self candidate = Some url /\
    (suggested_artist = artist self \/
     first_char_equal suggested_artist (artist self) = true /\
     (strict self = false \/ length candidates = 1)).
Proof.
  intros Hrun. apply find_lyrics_link_loop_sound in Hrun as (candidate & Hin & Hex).
  apply examine_sound in Hex as (a & Ha & Hurl & Htest).
  by exists candidate, a.
Qed.

Lemma find_lyrics_link_sound_witness :
  exists candidate suggested_artist,
    candidate ∈ Demo.petit_rows /\
    candidate_artist (Demo.fan PetitLyricsSearcher true) candidate
    = Some suggested_artist /\
    candidate_url (Demo.fan PetitLyricsSearcher true) candidate
    = Some (u "https://petitlyrics.com/lyrics/2") /\
    (suggested_artist = artist (Demo.fan PetitLyricsSearcher true) \/
     @first_char_equal Demo.runtime suggested_artist
       (artist (Demo.fan PetitLyricsSearcher true)) = true /\
     (strict (Demo.fan PetitLyricsSearcher true) = false \/
      length Demo.petit_rows = 1)).
Proof.
  apply (@find_lyrics_link_sound Demo.runtime). vm_compute. reflexivity.
Defined.

Section Strict.
Context `{Runtime}.

Lemma examine_strict (self : Self) (n : nat) (candidate : Tag) :
  n <> 1 -> strict self = true ->
  has_href_if_artist self candidate = true ->
  examine self n candidate =
  Return (if selects self candidate then candidate_url self candidate else None).
Proof.
  intros Hn Hstrict Hwf. unfold has_href_if_artist, selects in *.
  destruct (candidate_artist self candidate) as [a|] eqn:Ha;
    [|by apply examine_no_artist].
  apply bool_decide_eq_true in Hwf as [url Hurl].
  rewrite (examine_tests _ _ _ _ _ Ha Hurl), Hurl, Hstrict.
  apply Nat.eqb_neq in Hn. rewrite Hn. simpl.
  by destruct (bool_decide (a = artist self)).
Qed.

End Strict.

(** X20: in strict mode, on a sequence that is not a single candidate, the
    first characters are never looked at: empty artist strings raise nothing,
    and as soon as every candidate with an artist element has a link with an
    [href], the URL of the first candidate whose artist equals the query
    artist is returned, [LyricsNotFoundError] being raised when there is
    none. *)
Theorem find_lyrics_link_strict `{Runtime} (self : Self) (candidates : list Tag) :
  strict self = true ->
  length candidates <> 1 ->
  forallb (has_href_if_artist self) candidates = true ->
  selection_rule self candidates.
Proof.
  intros Hstrict. unfold selection_rule, find_lyrics_link.
  generalize (length candidates). intros n Hn.
  induction candidates as [|c cs IH]; [done|].
  intros Hwf. simpl in Hwf. apply andb_prop in Hwf as [Hc Hcs].
  simpl. rewrite (examine_strict _ _ _ Hn Hstrict Hc).
  destruct (selects self c) eqn:Hsel; [|by apply IH].
  unfold has_href_if_artist, selects in Hc, Hsel.
  destruct (candidate_artist self c); [|done].
  apply bool_decide_eq_true in Hc as [url Hurl].
  exists url. by rewrite Hurl.
Qed.

Lemma find_lyrics_link_strict_witness :
  @find_lyrics_link Demo.runtime (Demo.nameless UtanetSearcher true)
    Demo.utanet_rows
  = Raise LyricsNotFoundError.
Proof.
  apply (@find_lyrics_link_strict Demo.runtime (Demo.nameless UtanetSearcher true)
           Demo.utanet_rows); [reflexivity|discriminate|vm_compute; reflexivity].
Defined.

(** ** The ranking scraper *)

Section Ranking.
Import FetchRanking.
Context `{Collaborators}.

(** A fetch for a key of six characters makes exactly one request and touches
    nothing else. *)
Lemma fetch_from_ranking_state (year : pystr) (st : State) :
  length year = 6 ->
  snd (fetch_from_ranking year st)
  = mkState (requests st ++ [ranking_url year]) (stdout st) (stderr st)
      (var_result st).
Proof.
  intros Hlen. unfold fetch_from_ranking. rewrite Hlen. simpl.
  by destruct (http (requests st) (ranking_url year)).
Qed.

Lemma step_bound (top_ym : pystr) (st : State) (previous : list (pystr * pystr)) :
  length top_ym = 6 ->
  var_result st = Some previous ->
  exists printed written result,
    step top_ym st
    = (inr tt,
       mkState (requests st ++ [ranking_url top_ym]) (stdout st ++ printed)
         (stderr st ++ written) (Some result)) /\
    1 <= length written.
Proof.
  intros Hlen Hvar. unfold step.
  pose proof (fetch_from_ranking_state top_ym st Hlen) as Hst.
  destruct (fetch_from_ranking top_ym st) as [[e|result] st1];
    simpl in Hst; subst st1; cbn [var_result requests stdout stderr].
  - rewrite Hvar.
    exists (if 1 <? length previous then [table previous] else []),
      [top_ym ++ u ": failed" ++ [newline];
       top_ym ++ u ": " ++ str_of_nat (length previous) ++ [newline]], previous.
    split; [|simpl; lia].
    destruct (1 <? length previous); cbn [requests stdout stderr var_result];
      by rewrite <- ?app_assoc, ?app_nil_r.
  - exists (if 1 <? length result then [table result] else []),
      [top_ym ++ u ": " ++ str_of_nat (length result) ++ [newline]], result.
    split; [|simpl; lia].
    destruct (1 <? length result); cbn [requests stdout stderr var_result];
      by rewrite ?app_nil_r.
Qed.

Lemma loop_bound (keys : list pystr) (st : State) (previous : list (pystr * pystr)) :
  Forall (fun key => length key = 6) keys ->
  var_result st = Some previous ->
  exists printed written result,
    loop keys st
    = (inr tt,
       mkState (requests st ++ map ranking_url keys) (stdout st ++ printed)
         (stderr st ++ written) (Some result)) /\
    length keys <= length written.
Proof.
  intros Hkeys. revert st previous.
  induction Hkeys as [|key keys Hkey _ IH]; intros st previous Hvar.
  - exists [], [], previous. rewrite !app_nil_r. split; [|done].
    destruct st; simpl in *; by subst.
  - destruct (step_bound key st previous Hkey Hvar)
      as (printed1 & written1 & result1 & Hstep & Hlen1).
    cbn [loop]. rewrite Hstep.
    destruct (IH (mkState (requests st ++ [ranking_url key]) (stdout st ++ printed1)
                    (stderr st ++ written1) (Some result1)) result1 eq_refl)
      as (printed2 & written2 & result2 & Hloop & Hlen2).
    rewrite Hloop. cbn [requests stdout stderr].
    exists (printed1 ++ printed2), (written1 ++ written2), result2.
    rewrite <- !app_assoc. split; [done|]. rewrite length_app. simpl. lia.
Qed.

Lemma top_yms_lengths : Forall (fun key => length key = 6) top_yms.
Proof. apply Forall_fold_right. vm_compute. tauto. Qed.

(** The loop from the start of the script, where [result] is unbound. *)
Lemma loop_from_start (key : pystr) (keys : list pystr) :
  length key = 6 ->
  Forall (fun key => length key = 6) keys ->
  match fst (fetch_from_ranking key (mkState [] [] [] None)) with
  | inl _ =>
      loop (key :: keys) (mkState [] [] [] None)
      = (inl NameError,
         mkState [ranking_url key] [] [key ++ u ": failed" ++ [newline]] None)
  | inr _ =>
      exists printed written result,
        loop (key :: keys) (mkState [] [] [] None)
        = (inr tt,
           mkState (map ranking_url (key :: keys)) printed written (Some result)) /\
        length (key :: keys) <= length written
  end.
Proof.
  intros Hkey Hkeys.
  pose proof (fetch_from_ranking_state key (mkState [] [] [] None) Hkey) as Hst.
  cbn [loop]. unfold step.
  destruct (fetch_from_ranking key (mkState [] [] [] None)) as [[e|result] st1];
    simpl in Hst; subst st1; cbn [fst]; [done|].
  cbn [var_result requests stdout stderr app].
  destruct (loop_bound keys
              (mkState [ranking_url key]
                 (if 1 <? length result then [table result] else [])
                 [key ++ u ": " ++ str_of_nat (length result) ++ [newline]]
                 (Some result)) result Hkeys eq_refl)
    as (printed & written & result' & Hloop & Hlen).
  destruct (1 <? length result); cbn [var_result requests stdout stderr app];
    rewrite Hloop; eexists _, _, result'; (split; [reflexivity|]);
    rewrite length_app; simpl; lia.
Qed.


End Ranking.

(** X21: whatever the network does, the script ends in one of two ways.  When
    the fetch of the first month, January 2018, fails, [result] is still
    unbound where its length is taken and the script stops with [NameError],
    after one request and the one line on [stderr].  When it succeeds, the
    script ends normally, having requested the 132 months from 2018 back to
    2008 in order, each once, and written at least one line on [stderr] for
    each. *)
Theorem script_ends `{FetchRanking.Collaborators} :
  match fst (FetchRanking.fetch_from_ranking (u "201801")
               (FetchRanking.mkState [] [] [] None)) with
  | inl _ =>
      FetchRanking.script
      = (inl FetchRanking.NameError,
         FetchRanking.mkState [FetchRanking.ranking_url (u "201801")] []
           [u "201801: failed" ++ [newline]] None)
  | inr _ =>
      exists printed written result,
        FetchRanking.script
        = (inr tt,
           FetchRanking.mkState
             (map FetchRanking.ranking_url FetchRanking.top_yms)
             printed written (Some result)) /\
        length FetchRanking.top_yms = 132 /\
        132 <= length written
  end.
Proof.
  assert (Hkeys : FetchRanking.top_yms = u "201801" :: drop 1 FetchRanking.top_yms)
    by (vm_compute; reflexivity).
  assert (Hcount : length FetchRanking.top_yms = 132) by (vm_compute; reflexivity).
  pose proof top_yms_lengths as Hlens. rewrite Hkeys in Hlens.
  apply Forall_cons in Hlens as [Hfirst Hrest].
  pose proof (loop_from_start (u "201801") (drop 1 FetchRanking.top_yms)
                Hfirst Hrest) as Hrun.
  rewrite <- Hkeys in Hrun. unfold FetchRanking.script.
  destruct (fst (FetchRanking.fetch_from_ranking (u "201801")
                   (FetchRanking.mkState [] [] [] None))); [exact Hrun|].
  destruct Hrun as (printed & written & result & Hrun & Hlen).
  exists printed, written, result. split; [exact Hrun|]. split; [exact Hcount|].
  by rewrite <- Hcount.
Qed.

(** X22: a month whose fetch fails, after an earlier month was fetched, is
    reported twice on [stderr], as failed and with the row count of the last
    month that was fetched, and the rows of that month are printed once more
    when there are at least two; the script goes on. *)
Theorem step_repeats_previous `{FetchRanking.Collaborators} (top_ym : pystr)
    (st : FetchRanking.State) (previous : list (pystr * pystr))
    (e : FetchRanking.error) :
  length top_ym = 6 ->
  FetchRanking.var_result st = Some previous ->
  fst (FetchRanking.fetch_from_ranking top_ym st) = inl e ->
  FetchRanking.step top_ym st
  = (inr tt,
     FetchRanking.mkState
       (FetchRanking.requests st ++ [FetchRanking.ranking_url top_ym])
       (FetchRanking.stdout st
        ++ (if 1 <? length previous then [FetchRanking.table previous] else []))
       (FetchRanking.stderr st
        ++ [top_ym ++ u ": failed" ++ [newline];
            top_ym ++ u ": " ++ FetchRanking.str_of_nat (length previous)
            ++ [newline]])
       (Some previous)).
Proof.
  intros Hlen Hvar Hfail. unfold FetchRanking.step.
  pose proof (fetch_from_ranking_state top_ym st Hlen) as Hst.
  destruct (FetchRanking.fetch_from_ranking top_ym st) as [[e'|result] st1];
    simpl in Hst, Hfail; [subst st1|done].
  cbn [FetchRanking.var_result FetchRanking.requests FetchRanking.stdout
         FetchRanking.stderr].
  rewrite Hvar. destruct (1 <? length previous);
    cbn [FetchRanking.var_result FetchRanking.requests FetchRanking.stdout
           FetchRanking.stderr];
    by rewrite <- ?app_assoc, ?app_nil_r.
Qed.

Lemma step_repeats_previous_witness :
  @FetchRanking.step FetchRanking.unreachable (u "201802")
    (FetchRanking.mkState [] [] []
       (Some [(u "tsubomi", u "flumpool"); (u "hana", u "Kobukuro")]))
  = (inr tt,
     FetchRanking.mkState
       [u "https://www.karatetsu.com/ranking/index.php?top_ym=201802"]
       [u "tsubomi" ++ tab :: u "flumpool" ++ newline :: u "hana" ++ tab :: u "Kobukuro"]
       [u "201802: failed" ++ [newline]; u "201802: 2" ++ [newline]]
       (Some [(u "tsubomi", u "flumpool"); (u "hana", u "Kobukuro")])).
Proof.
  exact (@step_repeats_previous FetchRanking.unreachable (u "201802")
           (FetchRanking.mkState [] [] []
              (Some [(u "tsubomi", u "flumpool"); (u "hana", u "Kobukuro")]))
           _ (FetchRanking.TransportError 503) eq_refl eq_refl eq_refl).
Defined.



Section MatchParen.
Import FetchRanking.

Lemma last_cons_cons {A} (x y : A) (l : list A) : last (x :: y :: l) = last (y :: l).
Proof. done. Qed.

Lemma final_newline_last (s : pystr) (c : N) :
  last s = Some c -> c <> newline -> final_newline s = [].
Proof.
  intros Hlast Hc. unfold final_newline. rewrite Hlast.
  by apply N.eqb_neq in Hc as ->.
Qed.

Lemma before_final_newline_last (s : pystr) (c : N) :
  last s = Some c -> c <> newline -> before_final_newline s = s.
Proof.
  intros Hlast Hc. unfold before_final_newline.
  by rewrite (final_newline_last s c Hlast Hc).
Qed.

Lemma paren_bracket_last (s : pystr) :
  paren_bracket s = true -> last s = Some close_bracket.
Proof.
  destruct s as [|c1 [|c2 rest]]; try done. cbn [paren_bracket].
  intros Hs. apply andb_prop in Hs as [Hs Hlast]. apply andb_prop in Hs as [_ Hlen].
  apply bool_decide_eq_true in Hlast. apply Nat.leb_le in Hlen.
  destruct rest as [|c3 rest]; [simpl in Hlen; lia|].
  by rewrite !last_cons_cons.
Qed.

Lemma body_paren_bracket_from_last (s : pystr) :
  body_paren_bracket_from s = true -> last s = Some close_bracket.
Proof.
  induction s as [|c s IH]; [done|]. cbn [body_paren_bracket_from].
  intros Hs. apply orb_prop in Hs as [Hs|Hs]; [by apply paren_bracket_last|].
  destruct s as [|c' s]; [done|]. rewrite last_cons_cons. by apply IH.
Qed.

(** A match needs the text to end in [)], in [\]] or in a newline. *)
Lemma paren_match_last (after : pystr) :
  paren_match after = true ->
  exists c, last after = Some c /\
            (c = close_paren \/ c = close_bracket \/ c = newline).
Proof.
  unfold paren_match. intros Hm. apply andb_prop in Hm as [_ Hm].
  destruct (last after) as [c|] eqn:Hlast;
    [|apply last_None in Hlast; by subst after].
  exists c. split; [done|].
  destruct (N.eqb_spec c newline) as [->|Hc]; [auto|].
  rewrite (before_final_newline_last after c Hlast Hc) in Hm.
  apply orb_prop in Hm as [Hm|Hm].
  - unfold body_paren in Hm. apply andb_prop in Hm as [_ Hm].
    apply bool_decide_eq_true in Hm. left. congruence.
  - destruct after as [|c0 s]; [done|]. cbn [body_paren_bracket] in Hm.
    apply body_paren_bracket_from_last in Hm.
    destruct s as [|c1 s]; [done|]. rewrite last_cons_cons in Hlast.
    right; left. congruence.
Qed.

Lemma match_paren_sub_prefix (t rest : pystr) :
  occurs open_paren t = false ->
  match_paren_sub (t ++ rest) = t ++ match_paren_sub rest.
Proof.
  induction t as [|c t IH]; [done|].
  unfold occurs. cbn [existsb]. intros Ht. apply orb_false_elim in Ht as [Hc Ht].
  cbn [app match_paren_sub]. rewrite (N.eqb_sym c open_paren), Hc. cbn [andb].
  by rewrite (IH Ht).
Qed.

Lemma body_paren_bracket_from_app (pre note : pystr) :
  note <> [] ->
  body_paren_bracket_from (pre ++ u ")[" ++ note ++ u "]") = true.
Proof.
  intros Hnote. induction pre as [|c pre IH].
  - change ([] ++ u ")[" ++ note ++ u "]")
      with (close_paren :: open_bracket :: note ++ [close_bracket]).
    cbn [body_paren_bracket_from]. apply orb_true_intro. left.
    cbn [paren_bracket]. rewrite !N.eqb_refl, last_snoc, length_app.
    rewrite bool_decide_eq_true_2 by done.
    rewrite andb_true_r. cbn [andb]. apply Nat.leb_le.
    destruct note; [done|]. simpl. lia.
  - cbn [app body_paren_bracket_from]. by rewrite IH, orb_true_r.
Qed.

End MatchParen.

(** X24: [match_paren] leaves a title alone when the title has no [(], and
    also when it ends in a character other than [)], [\]] and a newline. *)
Theorem match_paren_sub_unchanged (s : pystr) :
  (occurs FetchRanking.open_paren s = false -> FetchRanking.match_paren_sub s = s) /\
  (forall c, last s = Some c ->
             c <> FetchRanking.close_paren -> c <> FetchRanking.close_bracket ->
             c <> newline ->
             FetchRanking.match_paren_sub s = s).
Proof.
  split.
  - intros Hs. pose proof (match_paren_sub_prefix s [] Hs) as Hsub.
    by rewrite !app_nil_r in Hsub.
  - intros c Hlast Hp Hb Hn. induction s as [|x s IH]; [done|].
    cbn [FetchRanking.match_paren_sub].
    destruct (FetchRanking.paren_match s) eqn:Hm.
    + destruct (paren_match_last s Hm) as (c' & Hlast' & Hc').
      destruct s as [|y s]; [done|]. rewrite last_cons_cons, Hlast' in Hlast.
      injection Hlast as ->. by destruct Hc' as [?|[?|?]].
    + rewrite andb_false_r. destruct s as [|y s]; [done|].
      rewrite last_cons_cons in Hlast. by rewrite (IH Hlast).
Qed.

Lemma match_paren_sub_unchanged_witness :
  FetchRanking.match_paren_sub (u "hana (saku) hi") = u "hana (saku) hi" /\
  FetchRanking.match_paren_sub (u "tsubomi") = u "tsubomi".
Proof.
  split.
  - apply (proj2 (match_paren_sub_unchanged (u "hana (saku) hi")) 105%N);
      [reflexivity|discriminate..].
  - apply (proj1 (match_paren_sub_unchanged (u "tsubomi"))). reflexivity.
Defined.

(** X25: [match_paren] cuts a title at its first [(] when what follows is a
    note in parentheses, or a note in parentheses and one in brackets, that
    closes the title: the notes go, whatever parentheses they hold
    themselves. *)
Theorem match_paren_sub_note (title note : pystr) :
  occurs FetchRanking.open_paren title = false ->
  note <> [] ->
  occurs newline note = false ->
  FetchRanking.match_paren_sub (title ++ u "(" ++ note ++ u ")") = title /\
  (forall note2,
     note2 <> [] -> occurs newline note2 = false ->
     FetchRanking.match_paren_sub
       (title ++ u "(" ++ note ++ u ")[" ++ note2 ++ u "]") = title).
Proof.
  intros Htitle Hnote Hnl.
  assert (Hcut : forall after c,
             last after = Some c -> c <> newline ->
             FetchRanking.paren_match after = true ->
             FetchRanking.match_paren_sub (title ++ u "(" ++ after) = title).
  { intros after c Hlast Hc Hm. rewrite match_paren_sub_prefix by done.
    change (u "(" ++ after) with (FetchRanking.open_paren :: after).
    cbn [FetchRanking.match_paren_sub]. rewrite N.eqb_refl, Hm. cbn [andb].
    by rewrite (final_newline_last after c Hlast Hc), app_nil_r. }
  split.
  - apply (Hcut (note ++ u ")") FetchRanking.close_paren);
      [apply last_snoc|discriminate|].
    unfold FetchRanking.paren_match.
    rewrite (before_final_newline_last _ FetchRanking.close_paren)
      by (apply last_snoc || discriminate).
    unfold occurs in *. rewrite existsb_app, Hnl. cbn [negb andb existsb orb].
    unfold FetchRanking.body_paren.
    change (u ")") with [FetchRanking.close_paren].
    rewrite last_snoc, length_app, bool_decide_eq_true_2 by done.
    rewrite andb_true_r. cbn [orb]. apply orb_true_intro. left.
    apply Nat.leb_le. destruct note; [done|]. simpl. lia.
  - intros note2 Hnote2 Hnl2.
    assert (Hlast : last (note ++ u ")[" ++ note2 ++ u "]")
                    = Some FetchRanking.close_bracket).
    { change (u "]") with [FetchRanking.close_bracket].
      rewrite !app_assoc. apply last_snoc. }
    apply (Hcut _ FetchRanking.close_bracket Hlast); [discriminate|].
    unfold FetchRanking.paren_match.
    rewrite (before_final_newline_last _ FetchRanking.close_bracket Hlast)
      by discriminate.
    assert (Hclean : occurs newline (note ++ u ")[" ++ note2 ++ u "]") = false).
    { unfold occurs in *. by rewrite !existsb_app, Hnl, Hnl2. }
    rewrite Hclean. cbn [negb andb].
    destruct note as [|c note]; [done|]. cbn [app FetchRanking.body_paren_bracket].
    by rewrite body_paren_bracket_from_app, orb_true_r.
Qed.

Lemma match_paren_sub_note_witness :
  FetchRanking.match_paren_sub (u "tsubomi(movie (short) ver.)") = u "tsubomi" /\
  FetchRanking.match_paren_sub (u "tsubomi(live)[2009]") = u "tsubomi".
Proof.
  split.
  - apply (proj1 (match_paren_sub_note (u "tsubomi") (u "movie (short) ver.")
                    eq_refl ltac:(discriminate) eq_refl)).
  - apply (proj2 (match_paren_sub_note (u "tsubomi") (u "live")
                    eq_refl ltac:(discriminate) eq_refl) (u "2009"));
      [discriminate|reflexivity].
Defined.
